(** * plugin-dependency: the node (npm) dependency service

    A shallow embedding of [services/node.go]: the catalogue search handler
    [GetRepoList], the inventory scan [GetDependencies] and the two command
    builders [InstallDependencies] and [UninstallDependencies], with the
    properties of the specification proved about them.

    Conventions.
    - A Go [string] is a [string] (a sequence of bytes, one [ascii] each).
    - A Go [int] is a [Z] kept in the 64-bit two's-complement range by
      [Go.wrap].
    - A slice is a [list]; [append(s, x)] is [s ++ [x]].
    - A Go [map[string]V] is a [gmap string V].
    - The outside world (child processes, the HTTP session, the Mongo
      collection, the JSON decoders) is a record of oracles, [Env]; every call
      that leaves the process is logged as an [Event] by the monad [M]. *)

From Stdlib Require Import ZArith Ascii String List DecimalString.
From stdpp Require Import base list strings gmap fin_maps.

Open Scope string_scope.
Open Scope list_scope.

(** ** Go primitives *)

Module Go.

(** [int] on a 64-bit platform: results of arithmetic wrap around. *)
Definition wrap (z : Z) : Z := ((z + 2 ^ 63) mod 2 ^ 64 - 2 ^ 63)%Z.
Definition sub (a b : Z) : Z := wrap (a - b).
Definition mul (a b : Z) : Z := wrap (a * b).

(** The verb [%d] of [fmt.Sprintf]: an optional minus sign and the decimal
    digits. *)
Definition fmt_d (z : Z) : string := NilZero.string_of_int (Z.to_int z).

(** [error] values are compared against [nil] only; an error is its
    message. *)
Definition error := string.

End Go.

(** ** Task parameters

    The packages [entity], [models] and [constants] of the repository are not
    among the sources. Their declarations are modelled with the fields that
    [node.go] reads or writes, typed as their uses there force. *)

(** [primitive.ObjectID], twelve bytes, read as one number. *)
Definition ObjectID := N.

Module InstallParams.
(** Modelled from the spec: [entity.InstallParams] is missing from the
    sources; the specification lists command path, package names, proxy,
    upgrade flag, configuration flag and task id. *)
Record t := mk {
  TaskId : ObjectID;
  Cmd : string;
  Names : list string;
  Proxy : string;
  Upgrade : bool;
  UseConfig : bool
}.
End InstallParams.

Module UninstallParams.
(** Modelled from the spec: [entity.UninstallParams] is missing from the
    sources; command path, package names and task id. *)
Record t := mk {
  TaskId : ObjectID;
  Cmd : string;
  Names : list string
}.
End UninstallParams.

Module UpdateParams.
(** Modelled from the spec: [entity.UpdateParams] is missing from the
    sources; the command path is all that the inventory scan reads. *)
Record t := mk { Cmd : string }.
End UpdateParams.

(** ** Child processes *)

(** What becomes of [exec.Command(name, args...)] once it is started: the
    process cannot be spawned, or it runs to an exit code having written
    [stdout]. *)
Inductive ExecOutcome :=
  | SpawnFailed (err : Go.error)
  | Exited (code : Z) (stdout : string).

(** [cmd.Start()] followed by [cmd.Wait()]: [None] is the [nil] error. *)
Definition start_wait (o : ExecOutcome) : option Go.error :=
  match o with
  | SpawnFailed err => Some err
  | Exited code _ =>
      if decide (code = 0%Z) then None
      else Some ("exit status " +:+ Go.fmt_d code)
  end.

(** [cmd.Output()]: the captured standard output and the error of the run. The
    bytes written before a failing exit are still returned next to the
    error. *)
Definition output (o : ExecOutcome) : string * option Go.error :=
  match o with
  | SpawnFailed err => ("", Some err)
  | Exited code out =>
      (out, if decide (code = 0%Z) then None
            else Some ("exit status " +:+ Go.fmt_d code))
  end.

(** ** Argument lists *)

(** Lines 172-199 of [InstallDependencies]: the [args] slice handed to
    [exec.Command]. *)
Definition InstallDependencies_args (params : InstallParams.t) : list string :=
  let args : list string := [] in
  let args := args ++ ["install"] in
  let args := args ++ ["-g"] in
  let args :=
    if decide (InstallParams.Proxy params ≠ "") then
      let args := args ++ ["--registry"] in
      args ++ [InstallParams.Proxy params]
    else args in
  if InstallParams.UseConfig params then args
  else
    fold_left
      (fun args depName =>
         let depName :=
           if InstallParams.Upgrade params then depName +:+ "@latest"
           else depName in
         args ++ [depName])
      (InstallParams.Names params) args.

(** Lines 221-231 of [UninstallDependencies]. *)
Definition UninstallDependencies_args (params : UninstallParams.t) : list string :=
  let args : list string := [] in
  let args := args ++ ["uninstall"] in
  let args := args ++ ["-g"] in
  fold_left (fun args depName => args ++ [depName])
    (UninstallParams.Names params) args.

(** ** Inventory documents and registry answers *)

(** Modelled from the spec: [constants.DependencyTypeNode] is missing from
    the sources; the specification's inventory records of this service carry
    the ecosystem tag [node]. *)
Definition DependencyTypeNode : string := "node".

Module DependencyResult.
(** Modelled from the spec: [entity.DependencyResult] is missing from the
    sources; one group of the name-grouped aggregation, with the three fields
    the [$project] stage names. *)
Record t := mk {
  Name : string;
  NodeIds : list ObjectID;
  Versions : list string
}.
(** The zero value a [Dependency] holds before anything is attached. *)
Definition zero : t := mk "" [] [].
End DependencyResult.

Module Dependency.
(** Modelled from the spec: [models.Dependency] is missing from the sources;
    a document of the collection [colD] and an item of the search answer.
    Line 143 assigns a [DependencyResult] to [Result], so the field holds the
    struct by value and is the zero value until something is attached. *)
Record t := mk {
  NodeId : ObjectID;
  Type_ : string;
  Name : string;
  Version : string;
  LatestVersion : string;
  Result : DependencyResult.t
}.
Definition with_Result (dr : DependencyResult.t) (d : t) : t :=
  mk (NodeId d) (Type_ d) (Name d) (Version d) (LatestVersion d) dr.
End Dependency.

Module NpmResponseList.
(** Modelled from the spec: [entity.NpmResponseList] is missing from the
    sources; the search document [{total, results: [{package: {name,
    version}}]}]. *)
Record Package := mkPackage { Name : string; Version : string }.
Record Result := mkResult { Package_ : Package }.
Record t := mk { Total : Z; Results : list Result }.
End NpmResponseList.

Module NpmListResult.
(** Modelled from the spec: [entity.NpmListResult] is missing from the
    sources; the listing [{dependencies: {name: {version}}}]. *)
Record Dependency_ := mkDependency { Version : string }.
Record t := mk { Dependencies : gmap string Dependency_ }.
End NpmListResult.

Module Pagination.
(** The page and page size that [controllers.MustGetPagination] reads off
    the request. *)
Record t := mk { Page : Z; Size : Z }.
End Pagination.

(** ** The outside world *)

(** The answer of [reqSession.Get]: [(res, nil)], or an error that may still
    come with a response. *)
Module Http.
Record Response := mk { StatusCode : Z; Bytes : string }.
Inductive Outcome :=
  | Ok (res : Response)
  | Err (res : option Response) (err : Go.error).
End Http.

Record Env := {
  (** what running [name args...] leads to *)
  run : string → list string → ExecOutcome;
  (** the registry's answer to a GET of a URL *)
  http_get : string → Http.Outcome;
  (** [res.ToJSON(&npmRes)] on a response body *)
  ToJSON : string → Go.error + NpmResponseList.t;
  (** [json.Unmarshal(data, &res)] for an [NpmListResult] *)
  Unmarshal : string → Go.error + NpmListResult.t;
  (** the documents of the collection [colD] *)
  colD : list Dependency.t;
  (** whether the store fails on an aggregation that matches these names *)
  colD_err : list string → option Go.error
}.

Inductive Event :=
  | EvExec (name : string) (args : list string)
  | EvHttpGet (url : string)
  | EvAggregate (type : string) (names : list string).

(** Computations that log the calls leaving the process. *)
Definition M (A : Type) : Type := list Event → A * list Event.

#[export] Instance M_ret : MRet M := λ A (x : A) tr, (x, tr).
#[export] Instance M_bind : MBind M :=
  λ A B (f : A → M B) (m : M A) tr, let '(a, tr') := m tr in f a tr'.

Definition emit (e : Event) : M () := λ tr, ((), tr ++ [e]).

(** [exec.Command(name, args...)], started. *)
Definition exec_Command (env : Env) (name : string) (args : list string)
  : M ExecOutcome :=
  _ ← emit (EvExec name args); mret (run env name args).

(** [reqSession.Get(url, ua)]. *)
Definition reqSession_Get (env : Env) (url : string) : M Http.Outcome :=
  _ ← emit (EvHttpGet url); mret (http_get env url).

(** ** [net/url.QueryEscape]

    The standard library's escaping of a query component: letters, digits and
    [-], [_], [.], [~] are kept, a space becomes [+], every other byte becomes
    [%XX] with upper-case hexadecimal digits. *)
Module url.

Definition upperhex : string := "0123456789ABCDEF".

Definition hex (n : N) : ascii :=
  default "0"%char (String.get (N.to_nat n) upperhex).

Definition shouldEscape (c : ascii) : bool :=
  let n := N_of_ascii c in
  if ((97 <=? n) && (n <=? 122) || (65 <=? n) && (n <=? 90)
      || (48 <=? n) && (n <=? 57))%N then false
  else if ((n =? 45) || (n =? 95) || (n =? 46) || (n =? 126))%N then false
  else true.

Fixpoint QueryEscape (s : string) : string :=
  match s with
  | EmptyString => EmptyString
  | String c s' =>
      if Ascii.eqb c " "%char then String "+"%char (QueryEscape s')
      else if shouldEscape c then
        let n := N_of_ascii c in
        String "%"%char
          (String (hex (N.shiftr n 4))
             (String (hex (N.land n 15)) (QueryEscape s')))
      else String c (QueryEscape s')
  end.

End url.

(** ** The aggregation pipeline of [GetRepoList] (lines 96-127)

    The three stages as MongoDB evaluates them over the documents of the
    collection. The order in which [$group] emits its groups is not fixed by
    the server; the groups are kept in a finite map keyed by [_id]. *)

(** [$addToSet]: the value joins the array unless it is there already. *)
Definition addToSet (v : string) (vs : list string) : list string :=
  if decide (v ∈ vs) then vs else vs ++ [v].

(** [{$match: {type: type, name: {$in: names}}}]. *)
Definition stage_match (type : string) (names : list string)
    (docs : list Dependency.t) : list Dependency.t :=
  filter (λ d, Dependency.Type_ d = type ∧ Dependency.Name d ∈ names) docs.

(** What one document does to the group of its name: its node id is pushed,
    its version joins the set. *)
Definition push_doc (o : option (list ObjectID * list string))
    (d : Dependency.t) : list ObjectID * list string :=
  match o with
  | Some (node_ids, versions) =>
      (node_ids ++ [Dependency.NodeId d],
       addToSet (Dependency.Version d) versions)
  | None => ([Dependency.NodeId d], [Dependency.Version d])
  end.

(** One document entering
    [{$group: {_id: "$name", node_ids: {$push: "$node_id"},
               versions: {$addToSet: "$version"}}}]. *)
Definition group_step (groups : gmap string (list ObjectID * list string))
    (d : Dependency.t) : gmap string (list ObjectID * list string) :=
  <[Dependency.Name d := push_doc (groups !! Dependency.Name d) d]> groups.

Definition stage_group (docs : list Dependency.t)
  : gmap string (list ObjectID * list string) :=
  fold_left group_step docs ∅.

(** [{$project: {name: "$_id", node_ids: "$node_ids", versions: "$versions"}}],
    decoded by [All(&depsResults)]. *)
Definition stage_project (groups : gmap string (list ObjectID * list string))
  : list DependencyResult.t :=
  (λ g, DependencyResult.mk g.1 g.2.1 g.2.2) <$> map_to_list groups.

Definition pipelines (type : string) (names : list string)
    (docs : list Dependency.t) : list DependencyResult.t :=
  stage_project (stage_group (stage_match type names docs)).

(** [svc.parent.colD.Aggregate(pipelines, nil).All(&depsResults)]. *)
Definition colD_Aggregate (env : Env) (type : string) (names : list string)
  : M (Go.error + list DependencyResult.t) :=
  _ ← emit (EvAggregate type names);
  mret (match colD_err env names with
        | Some err => inl err
        | None => inr (pipelines type names (colD env))
        end).

(** ** What a handler writes to the caller

    The helpers of [controllers] and the two writes of lines 59-60, by the
    HTTP status they set. *)
Inductive Response :=
  | HandleErrorBadRequest (err : Go.error)                       (* 400 *)
  | HandleErrorInternalServerError (err : Go.error)              (* 500 *)
  | AbortWithError (status : Z) (body : string) (err : Go.error)
  | HandleSuccess                                                (* 200, no data *)
  | HandleSuccessWithListData (deps : list Dependency.t) (total : Z).

(** ** [NodeService.GetRepoList] *)

(** Line 53. *)
Definition requestUrl (query : string) (pagination : Pagination.t) : string :=
  "https://api.npms.io/v2/search?from="
  +:+ Go.fmt_d (Go.mul (Go.sub (Pagination.Page pagination) 1)
                       (Pagination.Size pagination))
  +:+ "&q=" +:+ url.QueryEscape query +:+ "&size=20".

(** Lines 84-87: the item built for one registry result. *)
Definition candidate (r : NpmResponseList.Result) : Dependency.t :=
  Dependency.mk 0%N "" (NpmResponseList.Name (NpmResponseList.Package_ r)) ""
    (NpmResponseList.Version (NpmResponseList.Package_ r))
    DependencyResult.zero.

(** Lines 81-90: [deps] and [depNames], appended to side by side. *)
Definition collect (results : list NpmResponseList.Result)
  : list Dependency.t * list string :=
  fold_left
    (λ acc r,
       let d := candidate r in
       (acc.1 ++ [d], acc.2 ++ [Dependency.Name d]))
    results ([], []).

(** Lines 134-137. *)
Definition depsResultsMap (depsResults : list DependencyResult.t)
  : gmap string DependencyResult.t :=
  fold_left (λ m dr, <[DependencyResult.Name dr := dr]> m) depsResults ∅.

(** Lines 140-145: [deps[i].Result = dr] for every index whose name is a key
    of the map. *)
Definition iterate (m : gmap string DependencyResult.t)
    (deps : list Dependency.t) : list Dependency.t :=
  fold_left
    (λ deps i,
       match deps !! i with
       | Some d =>
           match m !! Dependency.Name d with
           | Some dr => <[i := Dependency.with_Result dr d]> deps
           | None => deps
           end
       | None => deps
       end)
    (seq 0 (length deps)) deps.

Definition GetRepoList (env : Env) (query : string)
    (pagination : Pagination.t) : M Response :=
  if decide (query = "") then mret (HandleErrorBadRequest "empty query")
  else
    res ← reqSession_Get env (requestUrl query pagination);
    match res with
    | Http.Err (Some res) err =>
        mret (AbortWithError (Http.StatusCode res) (Http.Bytes res) err)
    | Http.Err None err => mret (HandleErrorInternalServerError err)
    | Http.Ok res =>
        match ToJSON env (Http.Bytes res) with
        | inl err => mret (HandleErrorInternalServerError err)
        | inr npmRes =>
            if decide (NpmResponseList.Total npmRes = 0%Z) then
              mret HandleSuccess
            else
              let '(deps, depNames) :=
                collect (NpmResponseList.Results npmRes) in
              let total := NpmResponseList.Total npmRes in
              agg ← colD_Aggregate env DependencyTypeNode depNames;
              match agg with
              | inl err => mret (HandleErrorInternalServerError err)
              | inr depsResults =>
                  let deps := iterate (depsResultsMap depsResults) deps in
                  mret (HandleSuccessWithListData deps total)
              end
        end
    end.

(** ** [NodeService.GetDependencies] *)

(** The arguments of line 151. *)
Definition list_args : list string := ["list"; "-g"; "--json"; "--depth"; "0"].

(** Lines 160-167. Go visits the entries of a map in an order of its own
    choosing; the model takes the order of [map_to_list]. *)
Definition listed (res : NpmListResult.t) : list Dependency.t :=
  fold_left
    (λ deps e,
       deps ++ [Dependency.mk 0%N DependencyTypeNode e.1
                  (NpmListResult.Version e.2) "" DependencyResult.zero])
    (map_to_list (NpmListResult.Dependencies res)) [].

(** The pair [(deps, err)]; [[]] is the [nil] slice. *)
Definition GetDependencies (env : Env) (params : UpdateParams.t)
  : M (list Dependency.t * option Go.error) :=
  o ← exec_Command env (UpdateParams.Cmd params) list_args;
  let '(data, err) := output o in
  match err with
  | Some err => mret ([], Some err)
  | None =>
      match Unmarshal env data with
      | inl err => mret ([], Some err)
      | inr res => mret (listed res, None)
      end
  end.

(** ** [NodeService.InstallDependencies] and [UninstallDependencies]

    [trace.TraceError] prints the error and returns it. [_configureLogging]
    is declared outside [node.go]; the specification has it capture the
    output of the process into the task log, so the command runs with the
    arguments as built. *)
Definition InstallDependencies (env : Env) (params : InstallParams.t)
  : M (option Go.error) :=
  o ← exec_Command env (InstallParams.Cmd params)
        (InstallDependencies_args params);
  mret (start_wait o).

Definition UninstallDependencies (env : Env) (params : UninstallParams.t)
  : M (option Go.error) :=
  o ← exec_Command env (UninstallParams.Cmd params)
        (UninstallDependencies_args params);
  mret (start_wait o).

(** ** The specification's reading of the argument builders *)

(** The registry override flags: present when a proxy is set. *)
Definition proxy_flags (proxy : string) : list string :=
  if decide (proxy ≠ "") then ["--registry"; proxy] else [].

(** The version pin: [name@latest] when upgrading, the bare name otherwise. *)
Definition pinned (upgrade : bool) (name : string) : string :=
  if upgrade then name +:+ "@latest" else name.

(** Fixtures on which the statements below are instantiated. *)
Definition install_lodash : InstallParams.t :=
  InstallParams.mk 7%N "npm" ["lodash"; "express"] "https://registry.npmmirror.com"
    true false.

Definition install_from_config : InstallParams.t :=
  InstallParams.mk 7%N "npm" ["lodash"; "express"] "https://registry.npmmirror.com"
    true true.

(** ** The specification's reading of the merge step *)

(** "For each candidate, attach the aggregation result if present; leave it
    absent otherwise." *)
Definition attach (agg : list DependencyResult.t)
    (r : NpmResponseList.Result) : Dependency.t :=
  let d := candidate r in
  match list_find (λ dr, DependencyResult.Name dr = Dependency.Name d) agg with
  | Some (_, dr) => Dependency.with_Result dr d
  | None => d
  end.

(** What the specification asks of the item [d] returned for the registry
    result [r], given the aggregation [agg]. *)
Definition annotated (agg : list DependencyResult.t)
    (r : NpmResponseList.Result) (d : Dependency.t) : Prop :=
  Dependency.Name d = NpmResponseList.Name (NpmResponseList.Package_ r)
  ∧ Dependency.LatestVersion d =
      NpmResponseList.Version (NpmResponseList.Package_ r)
  ∧ (∀ dr, dr ∈ agg → DependencyResult.Name dr = Dependency.Name d →
       Dependency.Result d = dr)
  ∧ ((∀ dr, dr ∈ agg → DependencyResult.Name dr ≠ Dependency.Name d) →
       Dependency.Result d = DependencyResult.zero).

(** ** Fixtures: a registry that knows two packages, a fleet of three nodes *)

Definition registry_two : NpmResponseList.t :=
  NpmResponseList.mk 2
    [NpmResponseList.mkResult (NpmResponseList.mkPackage "lodash" "4.17.21");
     NpmResponseList.mkResult (NpmResponseList.mkPackage "left-pad" "1.3.0")].

Definition fleet : list Dependency.t :=
  [Dependency.mk 1%N "node" "lodash" "4.17.20" "" DependencyResult.zero;
   Dependency.mk 2%N "node" "lodash" "4.17.20" "" DependencyResult.zero;
   Dependency.mk 2%N "python" "lodash" "0.1" "" DependencyResult.zero;
   Dependency.mk 3%N "node" "lodash" "4.17.19" "" DependencyResult.zero;
   Dependency.mk 3%N "node" "express" "4.18.2" "" DependencyResult.zero].

(** A world in which everything answers: the registry with [registry_two],
    the package manager with exit code 0. *)
Definition env_up : Env := {|
  run := λ _ _, Exited 0 "{dependencies:{npm:{version:8.1.0}}}";
  http_get := λ _, Http.Ok (Http.mk 200 "{total:2,results:[...]}");
  ToJSON := λ _, inr registry_two;
  Unmarshal := λ _, inr (NpmListResult.mk
                           {[ "npm" := NpmListResult.mkDependency "8.1.0" ]});
  colD := fleet;
  colD_err := λ _, None
|}.

(** The registry finds nothing. *)
Definition env_no_match : Env := {|
  run := run env_up;
  http_get := λ _, Http.Ok (Http.mk 200 "{total:0,results:[]}");
  ToJSON := λ _, inr (NpmResponseList.mk 0 []);
  Unmarshal := Unmarshal env_up;
  colD := fleet;
  colD_err := λ _, None
|}.

(** The package manager prints a well-formed listing and exits with 1. *)
Definition env_list_exit_1 : Env := {|
  run := λ _ _, Exited 1 "{dependencies:{npm:{version:8.1.0}}}";
  http_get := http_get env_up;
  ToJSON := ToJSON env_up;
  Unmarshal := Unmarshal env_up;
  colD := fleet;
  colD_err := λ _, None
|}.

(** What a search for [lodash] answers in [env_up]. *)
Definition answer_two : list Dependency.t :=
  [Dependency.mk 0%N "" "lodash" "" "4.17.21"
     (DependencyResult.mk "lodash" [1%N; 2%N; 3%N] ["4.17.20"; "4.17.19"]);
   Dependency.mk 0%N "" "left-pad" "" "1.3.0" DependencyResult.zero].

(** ** [NodeService.GetLatestVersion] *)

Module NpmResponseDetail.
(** Modelled from the spec: [entity.NpmResponseDetail] is missing from the
    sources; the detail document [{collected: {metadata: {version}}}]. *)
Record Metadata := mkMetadata { Version : string }.
Record Collected_ := mkCollected { Metadata_ : Metadata }.
Record t := mk { Collected : Collected_ }.
End NpmResponseDetail.



(** ** Vocabulary of the further properties *)

(** The two answers of [GetRepoList] that are successes. *)
Definition is_success (r : Response) : bool :=
  match r with
  | HandleSuccess | HandleSuccessWithListData _ _ => true
  | _ => false
  end.

(** The names of the registry results, in order. *)
Definition result_names (npmRes : NpmResponseList.t) : list string :=
  (λ r, NpmResponseList.Name (NpmResponseList.Package_ r))
    <$> NpmResponseList.Results npmRes.


Definition env_registry_garbled : Env := {|
  run := run env_up;
  http_get := http_get env_up;
  ToJSON := λ _, inl "invalid character";
  Unmarshal := λ _, inl "invalid character";
  colD := fleet;
  colD_err := λ _, None
|}.

Definition env_store_down : Env := {|
  run := run env_up;
  http_get := http_get env_up;
  ToJSON := ToJSON env_up;
  Unmarshal := Unmarshal env_up;
  colD := fleet;
  colD_err := λ _, Some "connection refused"
|}.

(** The bytes [url.QueryEscape] leaves alone. *)
Definition unreserved (c : ascii) : bool := negb (url.shouldEscape c).

(** The bytes a query value is made of once escaped. *)
Definition query_byte (c : ascii) : bool :=
  unreserved c || Ascii.eqb c "+" || Ascii.eqb c "%".

Fixpoint all_bytes (p : ascii → bool) (s : string) : bool :=
  match s with
  | EmptyString => true
  | String c s' => p c && all_bytes p s'
  end.

(** The value of a hexadecimal digit, as [net/url] reads it. *)
Definition unhex (c : ascii) : N :=
  let n := N_of_ascii c in
  if ((48 <=? n) && (n <=? 57))%N then (n - 48)%N
  else if ((97 <=? n) && (n <=? 102))%N then (n - 97 + 10)%N
  else if ((65 <=? n) && (n <=? 70))%N then (n - 65 + 10)%N
  else 0%N.

Definition ishex (c : ascii) : bool :=
  let n := N_of_ascii c in
  ((48 <=? n) && (n <=? 57) || (97 <=? n) && (n <=? 102)
   || (65 <=? n) && (n <=? 70))%N.

(** [net/url.QueryUnescape], the reading of an escaped query value by the
    receiving side: [+] is a space, [%XX] is the byte [XX], and a [%] that
    is not followed by two hexadecimal digits is an error. *)
Fixpoint QueryUnescape (s : string) : option string :=
  match s with
  | EmptyString => Some EmptyString
  | String c s1 =>
      if Ascii.eqb c "%" then
        match s1 with
        | String h (String l s3) =>
            if ishex h && ishex l then
              String (ascii_of_N (N.shiftl (unhex h) 4 + unhex l))
                <$> QueryUnescape s3
            else None
        | _ => None
        end
      else if Ascii.eqb c "+" then String " " <$> QueryUnescape s1
      else String c <$> QueryUnescape s1
  end.

(** * Properties *)

(** ** Argument lists *)

Section append_loops.
Context {A B : Type} (f : A → B).

(** A [for ... range] that appends one element per iteration is a [map]
    behind what was there before. *)
Lemma fold_left_snoc (l : list A) (acc : list B) :
  fold_left (λ acc x, acc ++ [f x]) l acc = acc ++ (f <$> l).
Proof.
  revert acc. induction l as [|x l IH]; intros acc; simpl.
  - by rewrite app_nil_r.
  - rewrite IH. by rewrite <- app_assoc.
Qed.
End append_loops.

Lemma InstallDependencies_args_proxy (params : InstallParams.t) :
  InstallDependencies_args params =
    ["install"; "-g"] ++ proxy_flags (InstallParams.Proxy params)
    ++ (if InstallParams.UseConfig params then []
        else pinned (InstallParams.Upgrade params) <$> InstallParams.Names params).
Proof.
  unfold InstallDependencies_args, proxy_flags.
  destruct (InstallParams.UseConfig params).
  - case_decide; simpl; by rewrite ?app_nil_r.
  - rewrite (fold_left_snoc (pinned (InstallParams.Upgrade params))).
    case_decide; reflexivity.
Qed.

(** The process that [InstallDependencies] starts is [Cmd] with the arguments
    of [InstallDependencies_args], and nothing else leaves the service. *)
Lemma InstallDependencies_exec (env : Env) (params : InstallParams.t)
    (tr : list Event) :
  (InstallDependencies env params tr).2 =
    tr ++ [EvExec (InstallParams.Cmd params) (InstallDependencies_args params)].
Proof. reflexivity. Qed.

Lemma UninstallDependencies_exec (env : Env) (params : UninstallParams.t)
    (tr : list Event) :
  (UninstallDependencies env params tr).2 =
    tr ++ [EvExec (UninstallParams.Cmd params)
             (UninstallDependencies_args params)].
Proof. reflexivity. Qed.

(** C1. With [UseConfig] false the arguments built by [InstallDependencies]
    are [install], [-g], the proxy flags when a proxy is set, and then the
    package names in input order, each changed only by the suffix [@latest]
    when [Upgrade] is set. The statement needs no assumption on the names; it
    holds in particular for every non-empty sequence. *)
Theorem InstallDependencies_args_names (params : InstallParams.t) :
  InstallParams.UseConfig params = false →
  InstallDependencies_args params =
    ["install"; "-g"] ++ proxy_flags (InstallParams.Proxy params)
    ++ (pinned (InstallParams.Upgrade params) <$> InstallParams.Names params).
Proof.
  intros Hcfg. rewrite InstallDependencies_args_proxy. by rewrite Hcfg.
Qed.

Lemma InstallDependencies_args_names_witness :
  InstallDependencies_args install_lodash =
    ["install"; "-g"; "--registry"; "https://registry.npmmirror.com";
     "lodash@latest"; "express@latest"].
Proof. exact (InstallDependencies_args_names install_lodash eq_refl). Defined.

(** C6. With [UseConfig] true no package name is appended: the arguments are
    [install], [-g] and the proxy flags, whatever [Names] and [Upgrade]
    hold. *)
Theorem InstallDependencies_args_UseConfig (params : InstallParams.t) :
  InstallParams.UseConfig params = true →
  InstallDependencies_args params =
    ["install"; "-g"] ++ proxy_flags (InstallParams.Proxy params).
Proof.
  intros Hcfg. rewrite InstallDependencies_args_proxy, Hcfg.
  by rewrite app_nil_r.
Qed.

Lemma InstallDependencies_args_UseConfig_witness :
  InstallDependencies_args install_from_config =
    ["install"; "-g"; "--registry"; "https://registry.npmmirror.com"].
Proof. exact (InstallDependencies_args_UseConfig install_from_config eq_refl). Defined.

(** C10. With [UseConfig] true and a proxy set the arguments are exactly
    [install -g --registry <proxy>]: the proxy branch does not depend on the
    configuration branch. *)
Theorem InstallDependencies_args_UseConfig_proxy (params : InstallParams.t) :
  InstallParams.UseConfig params = true →
  InstallParams.Proxy params ≠ "" →
  InstallDependencies_args params =
    ["install"; "-g"; "--registry"; InstallParams.Proxy params].
Proof.
  intros Hcfg Hproxy. rewrite InstallDependencies_args_proxy, Hcfg.
  unfold proxy_flags. by rewrite decide_True.
Qed.

Lemma InstallDependencies_args_UseConfig_proxy_witness :
  InstallDependencies_args install_from_config =
    ["install"; "-g"; "--registry"; InstallParams.Proxy install_from_config].
Proof.
  apply (InstallDependencies_args_UseConfig_proxy install_from_config).
  - reflexivity.
  - discriminate.
Defined.

(** C7. The arguments built by [UninstallDependencies] are [uninstall], [-g]
    and then every name of [Names], unchanged and in input order. *)
Theorem UninstallDependencies_args_names (params : UninstallParams.t) :
  UninstallDependencies_args params =
    "uninstall" :: "-g" :: UninstallParams.Names params.
Proof.
  unfold UninstallDependencies_args.
  rewrite (fold_left_snoc id). by rewrite list_fmap_id.
Qed.

(** ** The name-grouped aggregation *)

Lemma group_step_lookup groups (d : Dependency.t) (n : string) :
  group_step groups d !! n =
    if decide (Dependency.Name d = n) then Some (push_doc (groups !! n) d)
    else groups !! n.
Proof.
  unfold group_step. case_decide as Hn.
  - subst n. apply lookup_insert_eq.
  - by apply lookup_insert_ne.
Qed.

Lemma addToSet_fold_elem (l vs : list string) (v : string) :
  v ∈ fold_left (λ vs v, addToSet v vs) l vs ↔ v ∈ vs ∨ v ∈ l.
Proof.
  revert vs. induction l as [|x l IH]; intros vs; simpl.
  - rewrite elem_of_nil. tauto.
  - rewrite IH, elem_of_cons. unfold addToSet. case_decide as Hx.
    + split; [tauto|]. intros [?|[->|?]]; tauto.
    + rewrite elem_of_app, list_elem_of_singleton. tauto.
Qed.

Lemma addToSet_fold_NoDup (l vs : list string) :
  NoDup vs → NoDup (fold_left (λ vs v, addToSet v vs) l vs).
Proof.
  revert vs. induction l as [|x l IH]; intros vs Hvs; simpl; [done|].
  apply IH. unfold addToSet. case_decide; [done|].
  apply NoDup_app. split_and!; [done| |apply NoDup_singleton].
  intros y Hy ->%list_elem_of_singleton. done.
Qed.

(** The group of [n] after a run of documents: untouched when none of them
    is named [n]; otherwise the node ids of those that are, pushed in store
    order, and their versions as a set. *)
Lemma group_fold_lookup (docs : list Dependency.t) groups (n : string) :
  fold_left group_step docs groups !! n =
    match filter (λ d, Dependency.Name d = n) docs with
    | [] => groups !! n
    | ds =>
        let start := default ([], []) (groups !! n) in
        Some (start.1 ++ (Dependency.NodeId <$> ds),
              fold_left (λ vs v, addToSet v vs) (Dependency.Version <$> ds)
                start.2)
    end.
Proof.
  revert groups. induction docs as [|d docs IH]; intros groups; simpl; [done|].
  rewrite IH, group_step_lookup. rewrite filter_cons.
  case_decide as Hn; [|done].
  destruct (filter _ docs) as [|d' ds] eqn:Hds; simpl.
  - unfold push_doc. destruct (groups !! n) as [[ns vs]|]; simpl; [done|].
    reflexivity.
  - unfold push_doc. destruct (groups !! n) as [[ns vs]|]; simpl.
    + by rewrite <- app_assoc.
    + reflexivity.
Qed.

Lemma stage_group_lookup (docs : list Dependency.t) (n : string) :
  stage_group docs !! n =
    match filter (λ d, Dependency.Name d = n) docs with
    | [] => None
    | ds =>
        Some (Dependency.NodeId <$> ds,
              fold_left (λ vs v, addToSet v vs) (Dependency.Version <$> ds) [])
    end.
Proof.
  unfold stage_group. rewrite group_fold_lookup, lookup_empty. reflexivity.
Qed.

Lemma stage_group_lookup_Some (docs : list Dependency.t) (n : string)
    (ns : list ObjectID) (vs : list string) :
  stage_group docs !! n = Some (ns, vs) ↔
  filter (λ d, Dependency.Name d = n) docs ≠ []
  ∧ ns = Dependency.NodeId <$> filter (λ d, Dependency.Name d = n) docs
  ∧ vs = fold_left (λ vs v, addToSet v vs)
           (Dependency.Version <$> filter (λ d, Dependency.Name d = n) docs) [].
Proof.
  rewrite stage_group_lookup.
  destruct (filter _ docs) as [|d ds]; [split; [done|by intros [? _]]|].
  split.
  - intros [= <- <-]. done.
  - intros (_ & -> & ->). done.
Qed.

Lemma elem_of_stage_project groups (dr : DependencyResult.t) :
  dr ∈ stage_project groups ↔
  groups !! DependencyResult.Name dr =
    Some (DependencyResult.NodeIds dr, DependencyResult.Versions dr).
Proof.
  unfold stage_project. rewrite list_elem_of_fmap. split.
  - intros ([n [ns vs]] & -> & Hin). by apply elem_of_map_to_list in Hin.
  - intros Hin. exists (DependencyResult.Name dr,
      (DependencyResult.NodeIds dr, DependencyResult.Versions dr)).
    split; [by destruct dr|]. by apply elem_of_map_to_list.
Qed.

Lemma stage_project_names groups :
  DependencyResult.Name <$> stage_project groups = (map_to_list groups).*1.
Proof.
  unfold stage_project. rewrite <- list_fmap_compose. reflexivity.
Qed.

(** The documents that feed the group of [n]. *)
Lemma elem_of_group_docs (type : string) (names : list string)
    (docs : list Dependency.t) (n : string) (d : Dependency.t) :
  d ∈ filter (λ d, Dependency.Name d = n) (stage_match type names docs) ↔
  d ∈ docs ∧ Dependency.Type_ d = type ∧ Dependency.Name d = n ∧ n ∈ names.
Proof.
  unfold stage_match. rewrite !list_elem_of_filter. split.
  - intros (Hn & [Ht Hin] & Hd). subst n. done.
  - intros (Hd & Ht & Hn & Hin). subst n. done.
Qed.

(** C2. The name-grouped aggregation over the stored documents of the node
    type returns one entry per queried name that has a stored document and
    none for the other names; the node ids of an entry are those of the
    stored documents of that name, its versions are their versions without
    repetition, and no entry is without a contributing node. *)
Theorem pipelines_by_name (names : list string) (docs : list Dependency.t) :
  let agg := pipelines DependencyTypeNode names docs in
  NoDup (DependencyResult.Name <$> agg)
  ∧ (∀ n : string,
       (∃ dr, dr ∈ agg ∧ DependencyResult.Name dr = n) ↔
       n ∈ names ∧
       ∃ d, d ∈ docs ∧ Dependency.Type_ d = DependencyTypeNode
            ∧ Dependency.Name d = n)
  ∧ (∀ dr : DependencyResult.t, dr ∈ agg →
       DependencyResult.NodeIds dr ≠ []
       ∧ (∀ id : ObjectID,
            id ∈ DependencyResult.NodeIds dr ↔
            ∃ d, d ∈ docs ∧ Dependency.Type_ d = DependencyTypeNode
                 ∧ Dependency.Name d = DependencyResult.Name dr
                 ∧ Dependency.NodeId d = id)
       ∧ NoDup (DependencyResult.Versions dr)
       ∧ (∀ v : string,
            v ∈ DependencyResult.Versions dr ↔
            ∃ d, d ∈ docs ∧ Dependency.Type_ d = DependencyTypeNode
                 ∧ Dependency.Name d = DependencyResult.Name dr
                 ∧ Dependency.Version d = v)).
Proof.
  intros agg. subst agg. unfold pipelines.
  set (matched := stage_match DependencyTypeNode names docs).
  assert (Hdocs : ∀ n d,
    d ∈ filter (λ d, Dependency.Name d = n) matched ↔
    d ∈ docs ∧ Dependency.Type_ d = DependencyTypeNode
    ∧ Dependency.Name d = n ∧ n ∈ names)
    by (intros; apply elem_of_group_docs).
  assert (Hsome : ∀ n, filter (λ d, Dependency.Name d = n) matched ≠ [] →
    ∃ d, d ∈ filter (λ d, Dependency.Name d = n) matched).
  { intros n Hne. destruct (filter _ matched) as [|d ds]; [done|].
    exists d. left. }
  split_and!.
  - rewrite stage_project_names. apply NoDup_fst_map_to_list.
  - intros n. split.
    + intros (dr & Hdr & <-). apply elem_of_stage_project in Hdr.
      apply stage_group_lookup_Some in Hdr as (Hne & _ & _).
      destruct (Hsome _ Hne) as [d Hd].
      apply Hdocs in Hd as (Hd & Ht & Hn & Hin). eauto.
    + intros (Hn & d & Hd & Ht & Hname).
      assert (Hin : d ∈ filter (λ d, Dependency.Name d = n) matched)
        by (apply Hdocs; done).
      eexists (DependencyResult.mk n _ _). split; [|done].
      apply elem_of_stage_project, stage_group_lookup_Some. simpl.
      split_and!; [|done..]. intros Hnil. rewrite Hnil in Hin.
      by apply elem_of_nil in Hin.
  - intros dr Hdr. apply elem_of_stage_project in Hdr.
    apply stage_group_lookup_Some in Hdr as (Hne & Hns & Hvs).
    specialize (Hdocs (DependencyResult.Name dr)).
    destruct (Hsome _ Hne) as [d0 Hd0].
    split_and!.
    + rewrite Hns. intros Hnil. apply fmap_nil_inv in Hnil. done.
    + intros id. rewrite Hns, list_elem_of_fmap. split.
      * intros (d & -> & Hd). apply Hdocs in Hd as (Hd & Ht & Hn & _).
        exists d. done.
      * intros (d & Hd & Ht & Hn & <-). exists d. split; [done|].
        apply Hdocs. apply Hdocs in Hd0 as (_ & _ & _ & Hin). done.
    + rewrite Hvs. apply addToSet_fold_NoDup, NoDup_nil_2.
    + intros v. rewrite Hvs, addToSet_fold_elem, list_elem_of_fmap. split.
      * intros [Hv|(d & -> & Hd)]; [by apply elem_of_nil in Hv|].
        apply Hdocs in Hd as (Hd & Ht & Hn & _). exists d. done.
      * intros (d & Hd & Ht & Hn & <-). right. exists d. split; [done|].
        apply Hdocs. apply Hdocs in Hd0 as (_ & _ & _ & Hin). done.
Qed.

(** *** Node ids under the store's key

    [$push] keeps one node id per contributing document. When the store holds
    at most one document per node, type and name, as the data model has it, no
    node id is repeated in an entry. *)

Lemma NoDup_fmap_same {A B : Type} (f : A → B) (l : list A) (x y : A) :
  NoDup (f <$> l) → x ∈ l → y ∈ l → f x = f y → x = y.
Proof.
  induction l as [|a l IH]; intros Hnd Hx Hy Hf.
  - by apply elem_of_nil in Hx.
  - rewrite fmap_cons in Hnd. apply NoDup_cons in Hnd as [Ha Hnd].
    apply elem_of_cons in Hx as [->|Hx]; apply elem_of_cons in Hy as [->|Hy].
    + reflexivity.
    + destruct Ha. rewrite Hf. by apply list_elem_of_fmap_2.
    + destruct Ha. rewrite <- Hf. by apply list_elem_of_fmap_2.
    + by apply IH.
Qed.

Lemma pipelines_NodeIds_NoDup (type : string) (names : list string)
    (docs : list Dependency.t) (dr : DependencyResult.t) :
  NoDup ((λ d, (Dependency.NodeId d, Dependency.Type_ d, Dependency.Name d))
           <$> docs) →
  dr ∈ pipelines type names docs → NoDup (DependencyResult.NodeIds dr).
Proof.
  intros Hkey Hdr. unfold pipelines in Hdr.
  apply elem_of_stage_project in Hdr.
  apply stage_group_lookup_Some in Hdr as (_ & -> & _).
  apply NoDup_fmap_2_strong.
  - intros x y Hx Hy Hid.
    apply elem_of_group_docs in Hx as (Hx & Hxt & Hxn & _).
    apply elem_of_group_docs in Hy as (Hy & Hyt & Hyn & _).
    apply (NoDup_fmap_same _ docs x y Hkey Hx Hy). congruence.
  - apply NoDup_filter, NoDup_filter. by apply NoDup_fmap_1 in Hkey.
Qed.

(** ** The catalogue search *)

(** C3. On the empty query [GetRepoList] answers with the bad-request error
    and logs no call: neither the registry nor the store is reached. *)
Theorem GetRepoList_empty_query (env : Env) (pagination : Pagination.t)
    (tr : list Event) :
  GetRepoList env "" pagination tr = (HandleErrorBadRequest "empty query", tr).
Proof. reflexivity. Qed.

(** The one registry request of a search with a non-empty query. *)
Lemma GetRepoList_request (env : Env) (query : string)
    (pagination : Pagination.t) (tr : list Event) :
  query ≠ "" →
  ∃ rest, (GetRepoList env query pagination tr).2 =
            tr ++ EvHttpGet (requestUrl query pagination) :: rest.
Proof.
  intros Hq. unfold GetRepoList. rewrite decide_False by done.
  unfold reqSession_Get, colD_Aggregate, emit, mbind, mret, M_bind, M_ret.
  destruct (http_get env _) as [res|[res|] err]; simpl; [|by exists []..].
  destruct (ToJSON env _) as [err|npmRes]; simpl; [by exists []|].
  case_decide; simpl; [by exists []|].
  destruct (collect _) as [deps depNames].
  eexists [_]. rewrite <- app_assoc.
  destruct (colD_err env depNames); reflexivity.
Qed.

(** A non-empty query whose registry answer decodes to a total of zero. *)
Lemma GetRepoList_no_results (env : Env) (query : string)
    (pagination : Pagination.t) (tr : list Event)
    (res : Http.Response) (npmRes : NpmResponseList.t) :
  query ≠ "" →
  http_get env (requestUrl query pagination) = Http.Ok res →
  ToJSON env (Http.Bytes res) = inr npmRes →
  NpmResponseList.Total npmRes = 0%Z →
  GetRepoList env query pagination tr =
    (HandleSuccess, tr ++ [EvHttpGet (requestUrl query pagination)]).
Proof.
  intros Hq Hget Hjson Htotal. unfold GetRepoList.
  rewrite decide_False by done.
  unfold reqSession_Get, emit, mbind, mret, M_bind, M_ret.
  rewrite Hget, Hjson. by rewrite decide_True.
Qed.

(** C8. A non-empty query whose registry answer decodes to [total = 0] is
    answered with [HandleSuccess]: a success that carries no item; the store
    is not consulted. *)
Theorem GetRepoList_total_0 (env : Env) (query : string)
    (pagination : Pagination.t) (tr : list Event)
    (res : Http.Response) (npmRes : NpmResponseList.t) :
  query ≠ "" →
  http_get env (requestUrl query pagination) = Http.Ok res →
  ToJSON env (Http.Bytes res) = inr npmRes →
  NpmResponseList.Total npmRes = 0%Z →
  GetRepoList env query pagination tr =
    (HandleSuccess, tr ++ [EvHttpGet (requestUrl query pagination)]).
Proof. apply GetRepoList_no_results. Qed.

Lemma GetRepoList_total_0_witness :
  GetRepoList env_no_match "lodash" (Pagination.mk 1 20) [] =
    (HandleSuccess,
     [] ++ [EvHttpGet (requestUrl "lodash" (Pagination.mk 1 20))]).
Proof.
  apply (GetRepoList_total_0 env_no_match "lodash" (Pagination.mk 1 20) []
           (Http.mk 200 "{total:0,results:[]}") (NpmResponseList.mk 0 []));
    [discriminate|reflexivity..].
Defined.

(** *** The loops of the merge step *)

Lemma collect_fmap (results : list NpmResponseList.Result) :
  collect results =
    (candidate <$> results,
     (λ r, NpmResponseList.Name (NpmResponseList.Package_ r)) <$> results).
Proof.
  unfold collect.
  enough (Hgen : ∀ acc : list Dependency.t * list string,
    fold_left
      (λ acc r, let d := candidate r in
                (acc.1 ++ [d], acc.2 ++ [Dependency.Name d]))
      results acc =
    (acc.1 ++ (candidate <$> results),
     acc.2 ++ ((λ r, NpmResponseList.Name (NpmResponseList.Package_ r))
               <$> results))) by apply Hgen.
  induction results as [|r results IH]; intros [ds ns]; simpl.
  - by rewrite !app_nil_r.
  - rewrite IH. simpl. by rewrite <- !app_assoc.
Qed.

Section results_map.
Implicit Types (l : list DependencyResult.t) (m : gmap string DependencyResult.t).

Lemma results_map_other l m (n : string) :
  (∀ dr, dr ∈ l → DependencyResult.Name dr ≠ n) →
  fold_left (λ m dr, <[DependencyResult.Name dr := dr]> m) l m !! n = m !! n.
Proof.
  revert m. induction l as [|x l IH]; intros m Hl; simpl; [done|].
  rewrite IH.
  - apply lookup_insert_ne, Hl. left.
  - intros dr Hdr. apply Hl. by right.
Qed.

Lemma results_map_elem l m (dr : DependencyResult.t) :
  NoDup (DependencyResult.Name <$> l) → dr ∈ l →
  fold_left (λ m dr, <[DependencyResult.Name dr := dr]> m) l m
    !! DependencyResult.Name dr = Some dr.
Proof.
  revert m. induction l as [|x l IH]; intros m Hnd Hdr; simpl.
  - by apply elem_of_nil in Hdr.
  - rewrite fmap_cons in Hnd. apply NoDup_cons in Hnd as [Hx Hnd].
    apply elem_of_cons in Hdr as [->|Hdr]; [|by apply IH].
    rewrite results_map_other.
    + apply lookup_insert_eq.
    + intros dr Hdr Heq. apply Hx. rewrite <- Heq.
      by apply list_elem_of_fmap_2.
Qed.

(** With one entry per name the map of lines 134-137 finds the entry of a
    name wherever the list has one. *)
Lemma depsResultsMap_lookup l (n : string) :
  NoDup (DependencyResult.Name <$> l) →
  depsResultsMap l !! n =
    snd <$> list_find (λ dr, DependencyResult.Name dr = n) l.
Proof.
  intros Hnd. unfold depsResultsMap.
  destruct (list_find _ l) as [[i dr]|] eqn:Hfind; simpl.
  - apply list_find_Some in Hfind as (Hi & <- & _).
    apply (results_map_elem l ∅ dr Hnd). by apply list_elem_of_lookup_2 in Hi.
  - apply list_find_None in Hfind.
    rewrite (results_map_other l ∅ n); [apply lookup_empty|].
    intros dr Hdr. by apply (proj1 (Forall_forall _ _) Hfind).
Qed.

End results_map.

(** The index loop of lines 140-145 rewrites every item on its own. *)
Lemma iterate_fmap (m : gmap string DependencyResult.t)
    (deps : list Dependency.t) :
  iterate m deps =
    (λ d, match m !! Dependency.Name d with
          | Some dr => Dependency.with_Result dr d
          | None => d
          end) <$> deps.
Proof.
  unfold iterate.
  set (g := λ d : Dependency.t,
         match m !! Dependency.Name d with
         | Some dr => Dependency.with_Result dr d
         | None => d
         end).
  set (step := λ (deps : list Dependency.t) (i : nat),
         match deps !! i with
         | Some d =>
             match m !! Dependency.Name d with
             | Some dr => <[i := Dependency.with_Result dr d]> deps
             | None => deps
             end
         | None => deps
         end).
  enough (Hgen : ∀ seen rest : list Dependency.t,
    fold_left step (seq (length seen) (length rest)) (seen ++ rest) =
    seen ++ (g <$> rest)) by apply (Hgen [] deps).
  intros seen rest. revert seen.
  induction rest as [|d rest IH]; intros seen; simpl; [by rewrite app_nil_r|].
  assert (Hstep : step (seen ++ d :: rest) (length seen) =
                  (seen ++ [g d]) ++ rest).
  { unfold step, g. rewrite list_lookup_middle by done.
    rewrite <- app_assoc. simpl.
    destruct (m !! Dependency.Name d) as [dr|]; [|done].
    rewrite insert_app_r_alt by done. by rewrite Nat.sub_diag. }
  rewrite Hstep. specialize (IH (seen ++ [g d])).
  rewrite length_app, Nat.add_1_r in IH. rewrite IH.
  by rewrite <- app_assoc.
Qed.

(** *** Attaching the aggregation *)

Lemma pipelines_names_NoDup (type : string) (names : list string)
    (docs : list Dependency.t) :
  NoDup (DependencyResult.Name <$> pipelines type names docs).
Proof.
  unfold pipelines. rewrite stage_project_names. apply NoDup_fst_map_to_list.
Qed.

Lemma pipelines_NodeIds_nonempty (type : string) (names : list string)
    (docs : list Dependency.t) (dr : DependencyResult.t) :
  dr ∈ pipelines type names docs → DependencyResult.NodeIds dr ≠ [].
Proof.
  unfold pipelines. intros Hdr. apply elem_of_stage_project in Hdr.
  apply stage_group_lookup_Some in Hdr as (Hne & -> & _).
  intros Hnil. by apply fmap_nil_inv in Hnil.
Qed.

Lemma same_name_same_entry (agg : list DependencyResult.t)
    (dr dr' : DependencyResult.t) :
  NoDup (DependencyResult.Name <$> agg) → dr ∈ agg → dr' ∈ agg →
  DependencyResult.Name dr = DependencyResult.Name dr' → dr = dr'.
Proof.
  intros Hnd Hdr Hdr' Hname.
  pose proof (results_map_elem agg ∅ dr Hnd Hdr) as H1.
  pose proof (results_map_elem agg ∅ dr' Hnd Hdr') as H2.
  rewrite Hname in H1. congruence.
Qed.

Lemma attach_annotated (agg : list DependencyResult.t)
    (r : NpmResponseList.Result) :
  NoDup (DependencyResult.Name <$> agg) → annotated agg r (attach agg r).
Proof.
  intros Hnd. unfold annotated, attach.
  destruct (list_find _ agg) as [[i dr']|] eqn:Hfind; simpl.
  - apply list_find_Some in Hfind as (Hi & Hname & _).
    apply list_elem_of_lookup_2 in Hi. simpl in Hname.
    split_and!; [reflexivity|reflexivity|..].
    + intros dr Hdr Heq. symmetry.
      apply (same_name_same_entry agg); [done..|congruence].
    + intros Hnone. destruct (Hnone dr' Hi Hname).
  - apply list_find_None in Hfind.
    split_and!; [reflexivity|reflexivity| |reflexivity].
    intros dr Hdr Heq.
    destruct (proj1 (Forall_forall _ _) Hfind dr Hdr Heq).
Qed.

(** The merge loop against the specification's [attach]. *)
Lemma iterate_attach (agg : list DependencyResult.t)
    (results : list NpmResponseList.Result) :
  NoDup (DependencyResult.Name <$> agg) →
  iterate (depsResultsMap agg) (candidate <$> results) = attach agg <$> results.
Proof.
  intros Hnd. rewrite iterate_fmap, <- list_fmap_compose.
  apply list_fmap_ext. intros _ r _. simpl. unfold attach.
  rewrite depsResultsMap_lookup by done.
  by destruct (list_find _ agg) as [[i dr]|].
Qed.

(** A search in which the registry answers, its answer decodes to a positive
    total and the store answers: the items are the registry results in
    order, each with its aggregation entry attached. *)
Lemma GetRepoList_merged (env : Env) (query : string)
    (pagination : Pagination.t) (tr : list Event)
    (res : Http.Response) (npmRes : NpmResponseList.t) :
  let names := (λ r, NpmResponseList.Name (NpmResponseList.Package_ r))
                 <$> NpmResponseList.Results npmRes in
  query ≠ "" →
  http_get env (requestUrl query pagination) = Http.Ok res →
  ToJSON env (Http.Bytes res) = inr npmRes →
  NpmResponseList.Total npmRes ≠ 0%Z →
  colD_err env names = None →
  GetRepoList env query pagination tr =
    (HandleSuccessWithListData
       (attach (pipelines DependencyTypeNode names (colD env))
          <$> NpmResponseList.Results npmRes)
       (NpmResponseList.Total npmRes),
     tr ++ [EvHttpGet (requestUrl query pagination);
            EvAggregate DependencyTypeNode names]).
Proof.
  intros names Hq Hget Hjson Htotal Hstore. unfold GetRepoList.
  rewrite decide_False by done.
  unfold reqSession_Get, colD_Aggregate, emit, mbind, mret, M_bind, M_ret.
  rewrite Hget, Hjson. rewrite decide_False by done.
  rewrite collect_fmap. fold names. rewrite Hstore.
  rewrite iterate_attach by apply pipelines_names_NoDup.
  by rewrite <- app_assoc.
Qed.

(** C4. Whenever [GetRepoList] answers with a list, the registry answered and
    its answer decoded to some [npmRes]; the list has one item per registry
    result, in the registry's order, carrying the registry's name and latest
    version; the item holds the aggregation entry of its name when the
    aggregation has one and the zero value otherwise, and an attached entry
    is never the zero value. The list is a function of the registry results
    and of the aggregation alone. *)
Theorem GetRepoList_list (env : Env) (query : string)
    (pagination : Pagination.t) (tr tr' : list Event)
    (deps : list Dependency.t) (total : Z) :
  GetRepoList env query pagination tr =
    (HandleSuccessWithListData deps total, tr') →
  ∃ (res : Http.Response) (npmRes : NpmResponseList.t),
    http_get env (requestUrl query pagination) = Http.Ok res
    ∧ ToJSON env (Http.Bytes res) = inr npmRes
    ∧ total = NpmResponseList.Total npmRes
    ∧ let agg :=
        pipelines DependencyTypeNode
          ((λ r, NpmResponseList.Name (NpmResponseList.Package_ r))
             <$> NpmResponseList.Results npmRes) (colD env) in
      deps = attach agg <$> NpmResponseList.Results npmRes
      ∧ Forall2 (annotated agg) (NpmResponseList.Results npmRes) deps
      ∧ ∀ d, d ∈ deps →
          Dependency.Result d ≠ DependencyResult.zero ↔
          ∃ dr, dr ∈ agg ∧ DependencyResult.Name dr = Dependency.Name d.
Proof.
  intros Hrun.
  destruct (decide (query = "")) as [->|Hq]; [discriminate Hrun|].
  destruct (http_get env (requestUrl query pagination)) as [res|ores err]
    eqn:Hget.
  2: { revert Hrun. unfold GetRepoList. rewrite decide_False by done.
       unfold reqSession_Get, emit, mbind, mret, M_bind, M_ret. rewrite Hget.
       by destruct ores. }
  destruct (ToJSON env (Http.Bytes res)) as [err|npmRes] eqn:Hjson.
  { revert Hrun. unfold GetRepoList. rewrite decide_False by done.
    unfold reqSession_Get, emit, mbind, mret, M_bind, M_ret.
    by rewrite Hget, Hjson. }
  destruct (decide (NpmResponseList.Total npmRes = 0%Z)) as [Hz|Hnz].
  { by rewrite (GetRepoList_no_results env query pagination tr res npmRes)
      in Hrun. }
  set (names := (λ r, NpmResponseList.Name (NpmResponseList.Package_ r))
                  <$> NpmResponseList.Results npmRes).
  destruct (colD_err env names) as [err|] eqn:Hstore.
  { revert Hrun. unfold GetRepoList. rewrite decide_False by done.
    unfold reqSession_Get, colD_Aggregate, emit, mbind, mret, M_bind, M_ret.
    rewrite Hget, Hjson. rewrite decide_False by done.
    rewrite collect_fmap. fold names. by rewrite Hstore. }
  rewrite (GetRepoList_merged env query pagination tr res npmRes) in Hrun
    by done.
  fold names in Hrun. injection Hrun as <- <- _. subst names.
  exists res, npmRes. split_and!; [done..|]. intros agg.
  assert (Hnd : NoDup (DependencyResult.Name <$> agg))
    by apply pipelines_names_NoDup.
  split_and!; [done| |].
  - apply Forall2_fmap_r, Forall_Forall2_diag, Forall_forall.
    intros r _. by apply attach_annotated.
  - intros d (r & -> & _)%list_elem_of_fmap. fold agg.
    destruct (attach_annotated agg r Hnd) as (_ & _ & Hsome & Hnone).
    split.
    + intros Hres. destruct (list_find
        (λ dr, DependencyResult.Name dr = Dependency.Name (attach agg r)) agg)
        as [[i dr]|] eqn:Hfind.
      * apply list_find_Some in Hfind as (Hi & Hname & _).
        exists dr. split; [by apply list_elem_of_lookup_2 in Hi|done].
      * apply list_find_None in Hfind. destruct Hres. apply Hnone.
        intros dr Hdr. by apply (proj1 (Forall_forall _ _) Hfind).
    + intros (dr & Hdr & Hname). rewrite (Hsome dr Hdr Hname).
      intros Hzero. apply (pipelines_NodeIds_nonempty _ _ _ _ Hdr).
      by rewrite Hzero.
Qed.

Lemma GetRepoList_list_witness :
  GetRepoList env_up "lodash" (Pagination.mk 1 20) [] =
    (HandleSuccessWithListData answer_two 2,
     [EvHttpGet "https://api.npms.io/v2/search?from=0&q=lodash&size=20";
      EvAggregate "node" ["lodash"; "left-pad"]])
  ∧ ∃ (res : Http.Response) (npmRes : NpmResponseList.t),
      http_get env_up (requestUrl "lodash" (Pagination.mk 1 20)) = Http.Ok res
      ∧ ToJSON env_up (Http.Bytes res) = inr npmRes
      ∧ 2%Z = NpmResponseList.Total npmRes
      ∧ let agg :=
          pipelines DependencyTypeNode
            ((λ r, NpmResponseList.Name (NpmResponseList.Package_ r))
               <$> NpmResponseList.Results npmRes) (colD env_up) in
        answer_two = attach agg <$> NpmResponseList.Results npmRes
        ∧ Forall2 (annotated agg) (NpmResponseList.Results npmRes) answer_two
        ∧ ∀ d, d ∈ answer_two →
            Dependency.Result d ≠ DependencyResult.zero ↔
            ∃ dr, dr ∈ agg ∧ DependencyResult.Name dr = Dependency.Name d.
Proof.
  split; [vm_compute; reflexivity|].
  apply (GetRepoList_list env_up "lodash" (Pagination.mk 1 20) []
           [EvHttpGet "https://api.npms.io/v2/search?from=0&q=lodash&size=20";
            EvAggregate "node" ["lodash"; "left-pad"]]
           answer_two 2).
  vm_compute; reflexivity.
Defined.

(** ** The request sent to the registry *)

(** The offset of the request is [(Page - 1) * Size] in [int] arithmetic; the
    requested number of results is the literal 20, whatever [Size] is. *)
Lemma requestUrl_from_size (query : string) (pagination : Pagination.t) :
  requestUrl query pagination =
    "https://api.npms.io/v2/search?from="
    +:+ Go.fmt_d (Go.wrap (Go.wrap (Pagination.Page pagination - 1)
                           * Pagination.Size pagination))
    +:+ "&q=" +:+ url.QueryEscape query +:+ "&size=" +:+ Go.fmt_d 20.
Proof. reflexivity. Qed.

(** C9, on the code: the second page of ten items per page is requested at
    offset 10 with a limit of 20, not of 10. *)
Theorem GetRepoList_page_2_of_10 :
  (GetRepoList env_up "lodash" (Pagination.mk 2 10) []).2 =
    [EvHttpGet "https://api.npms.io/v2/search?from=10&q=lodash&size=20";
     EvAggregate "node" ["lodash"; "left-pad"]].
Proof. vm_compute. reflexivity. Qed.

(** ** The inventory scan *)

(** A scan whose process exits with 0 and whose output decodes. *)
Lemma GetDependencies_listed (env : Env) (params : UpdateParams.t)
    (tr : list Event) (out : string) (res : NpmListResult.t) :
  run env (UpdateParams.Cmd params) list_args = Exited 0 out →
  Unmarshal env out = inr res →
  GetDependencies env params tr =
    ((listed res, None),
     tr ++ [EvExec (UpdateParams.Cmd params) list_args]).
Proof.
  intros Hrun Hjson. unfold GetDependencies, exec_Command, emit.
  unfold mbind, mret, M_bind, M_ret. rewrite Hrun. simpl. by rewrite Hjson.
Qed.

(** C5. For every command path [GetDependencies] runs
    [<Cmd> list -g --json --depth 0] and nothing else. When that process
    cannot be started, exits with a non-zero code, or writes an output that
    does not decode, the call returns an error and the [nil] list, whatever
    the process had written. *)
Theorem GetDependencies_fails (env : Env) (params : UpdateParams.t)
    (tr : list Event) :
  (GetDependencies env params tr).2 =
    tr ++ [EvExec (UpdateParams.Cmd params)
             ["list"; "-g"; "--json"; "--depth"; "0"]]
  ∧ ((∃ err, run env (UpdateParams.Cmd params)
               ["list"; "-g"; "--json"; "--depth"; "0"] = SpawnFailed err)
     ∨ (∃ code out,
          run env (UpdateParams.Cmd params)
            ["list"; "-g"; "--json"; "--depth"; "0"] = Exited code out
          ∧ (code ≠ 0%Z ∨ ∃ err, Unmarshal env out = inl err)) →
     ∃ err, (GetDependencies env params tr).1 = ([], Some err)).
Proof.
  unfold GetDependencies, exec_Command, emit, list_args.
  unfold mbind, mret, M_bind, M_ret. split.
  - destruct (run env _ _) as [err|code out]; simpl; [done|].
    case_decide; [|done]. by destruct (Unmarshal env out).
  - intros [[err ->]|(code & out & -> & Hbad)]; simpl; [by exists err|].
    destruct (decide (code = 0%Z)) as [->|Hcode].
    + destruct Hbad as [Hne|[err Herr]]; [done|]. rewrite Herr. by exists err.
    + by eexists.
Qed.

Lemma GetDependencies_fails_witness :
  ∃ err,
    (GetDependencies env_list_exit_1 (UpdateParams.mk "npm") []).1 =
      ([], Some err).
Proof.
  apply (GetDependencies_fails env_list_exit_1 (UpdateParams.mk "npm") []).
  right. exists 1%Z, "{dependencies:{npm:{version:8.1.0}}}".
  split; [reflexivity|]. left. discriminate.
Defined.

(** * Further properties of the service *)

(** ** Failures of the catalogue search *)

(** The search unfolded up to the store: what it does once the registry has
    answered with a positive total. *)
Lemma GetRepoList_after_registry (env : Env) (query : string)
    (pagination : Pagination.t) (tr : list Event)
    (res : Http.Response) (npmRes : NpmResponseList.t) :
  query ≠ "" →
  http_get env (requestUrl query pagination) = Http.Ok res →
  ToJSON env (Http.Bytes res) = inr npmRes →
  NpmResponseList.Total npmRes ≠ 0%Z →
  GetRepoList env query pagination tr =
    (match colD_err env (result_names npmRes) with
     | Some err => HandleErrorInternalServerError err
     | None =>
         HandleSuccessWithListData
           (iterate
              (depsResultsMap
                 (pipelines DependencyTypeNode (result_names npmRes)
                    (colD env)))
              (candidate <$> NpmResponseList.Results npmRes))
           (NpmResponseList.Total npmRes)
     end,
     tr ++ [EvHttpGet (requestUrl query pagination);
            EvAggregate DependencyTypeNode (result_names npmRes)]).
Proof.
  intros Hq Hget Hjson Htotal. unfold GetRepoList.
  rewrite decide_False by done.
  unfold reqSession_Get, colD_Aggregate, emit, mbind, mret, M_bind, M_ret.
  rewrite Hget, Hjson. rewrite decide_False by done.
  rewrite collect_fmap. fold (result_names npmRes).
  rewrite <- app_assoc. by destruct (colD_err env (result_names npmRes)).
Qed.

Lemma GetRepoList_registry_failed (env : Env) (query : string)
    (pagination : Pagination.t) (tr : list Event)
    (ores : option Http.Response) (err : Go.error) :
  query ≠ "" →
  http_get env (requestUrl query pagination) = Http.Err ores err →
  GetRepoList env query pagination tr =
    (match ores with
     | Some res => AbortWithError (Http.StatusCode res) (Http.Bytes res) err
     | None => HandleErrorInternalServerError err
     end,
     tr ++ [EvHttpGet (requestUrl query pagination)]).
Proof.
  intros Hq Hget. unfold GetRepoList. rewrite decide_False by done.
  unfold reqSession_Get, emit, mbind, mret, M_bind, M_ret.
  rewrite Hget. by destruct ores.
Qed.

Lemma GetRepoList_not_decoded (env : Env) (query : string)
    (pagination : Pagination.t) (tr : list Event)
    (res : Http.Response) (err : Go.error) :
  query ≠ "" →
  http_get env (requestUrl query pagination) = Http.Ok res →
  ToJSON env (Http.Bytes res) = inl err →
  GetRepoList env query pagination tr =
    (HandleErrorInternalServerError err,
     tr ++ [EvHttpGet (requestUrl query pagination)]).
Proof.
  intros Hq Hget Hjson. unfold GetRepoList. rewrite decide_False by done.
  unfold reqSession_Get, emit, mbind, mret, M_bind, M_ret.
  by rewrite Hget, Hjson.
Qed.

(** X1. The search answers with a success exactly when the query is not
    empty, the registry answered, its answer decoded, and either the total is
    zero or the store answered the aggregation: every other run ends in an
    error answer. *)
Theorem GetRepoList_success_iff (env : Env) (query : string)
    (pagination : Pagination.t) (tr : list Event) :
  is_success (GetRepoList env query pagination tr).1 = true ↔
  query ≠ ""
  ∧ ∃ (res : Http.Response) (npmRes : NpmResponseList.t),
      http_get env (requestUrl query pagination) = Http.Ok res
      ∧ ToJSON env (Http.Bytes res) = inr npmRes
      ∧ (NpmResponseList.Total npmRes = 0%Z
         ∨ colD_err env (result_names npmRes) = None).
Proof.
  destruct (decide (query = "")) as [->|Hq].
  { split; [discriminate|]. by intros [? _]. }
  destruct (http_get env (requestUrl query pagination)) as [res|ores err]
    eqn:Hget.
  2: { rewrite (GetRepoList_registry_failed env query pagination tr ores err)
         by done.
       split; [by destruct ores|]. by intros (_ & res & npmRes & ? & _). }
  destruct (ToJSON env (Http.Bytes res)) as [err|npmRes] eqn:Hjson.
  { rewrite (GetRepoList_not_decoded env query pagination tr res err) by done.
    split; [discriminate|].
    intros (_ & res' & npmRes & [= <-] & Hjson' & _). congruence. }
  destruct (decide (NpmResponseList.Total npmRes = 0%Z)) as [Hz|Hnz].
  { rewrite (GetRepoList_no_results env query pagination tr res npmRes)
      by done.
    split; [|done]. intros _. split; [done|]. exists res, npmRes. auto. }
  rewrite (GetRepoList_after_registry env query pagination tr res npmRes)
    by done.
  destruct (colD_err env (result_names npmRes)) as [err|] eqn:Hstore; simpl.
  - split; [discriminate|].
    intros (_ & res' & npmRes' & [= <-] & Hjson' & Hor).
    assert (npmRes' = npmRes) as -> by congruence.
    destruct Hor; congruence.
  - split; [|done]. intros _. split; [done|]. exists res, npmRes. auto.
Qed.

(** X2. What leaves the service during a search: nothing for the empty
    query; otherwise one registry request, followed by one aggregation over
    the names of the registry results when, and only when, the registry
    answer decoded to a non-zero total. The store is never consulted
    first, twice, or for a failed or empty registry answer. *)
Theorem GetRepoList_calls (env : Env) (query : string)
    (pagination : Pagination.t) (tr : list Event) :
  ∃ calls : list Event,
    (GetRepoList env query pagination tr).2 = tr ++ calls
    ∧ ((query = "" ∧ calls = [])
       ∨ (query ≠ ""
          ∧ calls = [EvHttpGet (requestUrl query pagination)]
          ∧ ∀ res npmRes,
              http_get env (requestUrl query pagination) = Http.Ok res →
              ToJSON env (Http.Bytes res) = inr npmRes →
              NpmResponseList.Total npmRes = 0%Z)
       ∨ (query ≠ ""
          ∧ ∃ res npmRes,
              http_get env (requestUrl query pagination) = Http.Ok res
              ∧ ToJSON env (Http.Bytes res) = inr npmRes
              ∧ NpmResponseList.Total npmRes ≠ 0%Z
              ∧ calls = [EvHttpGet (requestUrl query pagination);
                         EvAggregate DependencyTypeNode
                           (result_names npmRes)])).
Proof.
  destruct (decide (query = "")) as [->|Hq].
  { exists []. split; [by rewrite app_nil_r|]. by left. }
  destruct (http_get env (requestUrl query pagination)) as [res|ores err]
    eqn:Hget.
  2: { rewrite (GetRepoList_registry_failed env query pagination tr ores err)
         by done.
       eexists. split; [done|]. right. left. split_and!; [done..|].
       intros ?? [=]. }
  destruct (ToJSON env (Http.Bytes res)) as [err|npmRes] eqn:Hjson.
  { rewrite (GetRepoList_not_decoded env query pagination tr res err) by done.
    eexists. split; [done|]. right. left. split_and!; [done..|].
    intros ?? [= <-]. congruence. }
  destruct (decide (NpmResponseList.Total npmRes = 0%Z)) as [Hz|Hnz].
  { rewrite (GetRepoList_no_results env query pagination tr res npmRes)
      by done.
    eexists. split; [done|]. right. left. split_and!; [done..|].
    intros ?? [= <-]. congruence. }
  rewrite (GetRepoList_after_registry env query pagination tr res npmRes)
    by done.
  eexists. split; [done|]. right. right. split; [done|].
  exists res, npmRes. done.
Qed.



(** X4. When the store fails on the aggregation, the search answers with
    the store's error as an internal error and returns no item, although the
    registry had results; the registry results are not returned
    unannotated. *)
Theorem GetRepoList_store_error (env : Env) (query : string)
    (pagination : Pagination.t) (tr : list Event)
    (res : Http.Response) (npmRes : NpmResponseList.t) (err : Go.error) :
  query ≠ "" →
  http_get env (requestUrl query pagination) = Http.Ok res →
  ToJSON env (Http.Bytes res) = inr npmRes →
  NpmResponseList.Total npmRes ≠ 0%Z →
  colD_err env (result_names npmRes) = Some err →
  GetRepoList env query pagination tr =
    (HandleErrorInternalServerError err,
     tr ++ [EvHttpGet (requestUrl query pagination);
            EvAggregate DependencyTypeNode (result_names npmRes)]).
Proof.
  intros Hq Hget Hjson Htotal Hstore.
  rewrite (GetRepoList_after_registry env query pagination tr res npmRes)
    by done.
  by rewrite Hstore.
Qed.

Lemma GetRepoList_store_error_witness :
  GetRepoList env_store_down "lodash" (Pagination.mk 1 20) [] =
    (HandleErrorInternalServerError "connection refused",
     [] ++ [EvHttpGet (requestUrl "lodash" (Pagination.mk 1 20));
            EvAggregate DependencyTypeNode (result_names registry_two)]).
Proof.
  apply (GetRepoList_store_error env_store_down "lodash" (Pagination.mk 1 20)
           [] (Http.mk 200 "{total:2,results:[...]}") registry_two);
    [discriminate|reflexivity|reflexivity|discriminate|reflexivity].
Defined.

(** ** The merge loops on any aggregation *)

(** X5. Whatever list the store returns, the map of lines 134-137 holds
    for a name the last entry of that name in the list: a later entry
    overwrites an earlier one, and a name without entry is not a key. *)
Theorem depsResultsMap_last_wins (depsResults : list DependencyResult.t)
    (n : string) :
  depsResultsMap depsResults !! n =
    snd <$> list_find (λ dr, DependencyResult.Name dr = n)
              (reverse depsResults).
Proof.
  unfold depsResultsMap.
  induction depsResults as [|dr l IH] using rev_ind; [done|].
  rewrite fold_left_app, reverse_snoc. simpl. case_decide as Hn.
  - subst n. apply lookup_insert_eq.
  - rewrite lookup_insert_ne by done. rewrite IH.
    by destruct (list_find _ (reverse l)) as [[i dr']|].
Qed.

(** X6. The index loop of lines 140-145 keeps the length of [deps] and
    touches nothing but [Result]: the item at every index keeps its node id,
    type, name, version and latest version, and its [Result] becomes the map
    entry of its name when there is one and stays as it was otherwise. *)
Theorem iterate_only_Result (m : gmap string DependencyResult.t)
    (deps : list Dependency.t) :
  length (iterate m deps) = length deps
  ∧ ∀ (i : nat) (d : Dependency.t), deps !! i = Some d →
      ∃ d', iterate m deps !! i = Some d'
        ∧ Dependency.NodeId d' = Dependency.NodeId d
        ∧ Dependency.Type_ d' = Dependency.Type_ d
        ∧ Dependency.Name d' = Dependency.Name d
        ∧ Dependency.Version d' = Dependency.Version d
        ∧ Dependency.LatestVersion d' = Dependency.LatestVersion d
        ∧ Dependency.Result d' =
            default (Dependency.Result d) (m !! Dependency.Name d).
Proof.
  rewrite iterate_fmap. split; [apply length_fmap|].
  intros i d Hi. rewrite list_lookup_fmap, Hi. simpl.
  eexists. split; [reflexivity|].
  by destruct (m !! Dependency.Name d).
Qed.

(** ** More on the aggregation pipeline *)

Lemma elem_of_pipelines (type : string) (names : list string)
    (docs : list Dependency.t) (dr : DependencyResult.t) :
  dr ∈ pipelines type names docs ↔
  let ds := filter (λ d, Dependency.Name d = DependencyResult.Name dr)
              (stage_match type names docs) in
  ds ≠ []
  ∧ DependencyResult.NodeIds dr = Dependency.NodeId <$> ds
  ∧ DependencyResult.Versions dr =
      fold_left (λ vs v, addToSet v vs) (Dependency.Version <$> ds) [].
Proof.
  unfold pipelines. rewrite elem_of_stage_project.
  apply stage_group_lookup_Some.
Qed.

Lemma addToSet_fold_length (l vs : list string) :
  (length (fold_left (λ vs v, addToSet v vs) l vs) ≤ length vs + length l)%nat.
Proof.
  revert vs. induction l as [|x l IH]; intros vs; simpl; [lia|].
  etransitivity; [apply IH|]. unfold addToSet.
  case_decide; [lia|]. rewrite length_app. simpl. lia.
Qed.

(** The documents of one group, read off the store in one pass. *)
Lemma group_docs_filter (type : string) (names : list string)
    (docs : list Dependency.t) (n : string) :
  n ∈ names →
  filter (λ d, Dependency.Name d = n) (stage_match type names docs) =
  filter (λ d, Dependency.Type_ d = type ∧ Dependency.Name d = n) docs.
Proof.
  intros Hn. unfold stage_match. rewrite list_filter_filter.
  apply list_filter_iff. intros d. split.
  - intros (Hd & Ht & _). done.
  - intros (Ht & Hd). subst n. done.
Qed.

(** X7. An entry of the aggregation lists the node ids of the stored
    documents of its type and name in store order, one per document; it
    has at least one version and never more versions than node ids. *)
Theorem pipelines_entry_shape (type : string) (names : list string)
    (docs : list Dependency.t) (dr : DependencyResult.t) :
  dr ∈ pipelines type names docs →
  DependencyResult.NodeIds dr =
    Dependency.NodeId
      <$> filter (λ d, Dependency.Type_ d = type
                       ∧ Dependency.Name d = DependencyResult.Name dr) docs
  ∧ DependencyResult.Versions dr ≠ []
  ∧ (length (DependencyResult.Versions dr)
     ≤ length (DependencyResult.NodeIds dr))%nat.
Proof.
  intros Hdr. apply elem_of_pipelines in Hdr as (Hne & Hns & Hvs).
  assert (Hname : DependencyResult.Name dr ∈ names).
  { destruct (filter _ (stage_match type names docs)) as [|d ds] eqn:Hds;
      [done|].
    assert (Hd : d ∈ filter
      (λ d, Dependency.Name d = DependencyResult.Name dr)
      (stage_match type names docs)) by (rewrite Hds; left).
    by apply elem_of_group_docs in Hd as (_ & _ & _ & Hin). }
  split_and!.
  - rewrite Hns. by rewrite group_docs_filter.
  - rewrite Hvs.
    destruct (filter _ (stage_match type names docs)) as [|d ds]; [done|].
    intros Hnil.
    assert (Hin : Dependency.Version d ∈
      fold_left (λ vs v, addToSet v vs)
        (Dependency.Version <$> d :: ds) []).
    { apply addToSet_fold_elem. right. left. }
    rewrite Hnil in Hin. by apply elem_of_nil in Hin.
  - rewrite Hvs, Hns, length_fmap.
    etransitivity; [apply addToSet_fold_length|].
    rewrite length_fmap. simpl. lia.
Qed.

Lemma pipelines_entry_shape_witness :
  DependencyResult.NodeIds
    (DependencyResult.mk "lodash" [1%N; 2%N; 3%N] ["4.17.20"; "4.17.19"]) =
    Dependency.NodeId
      <$> filter (λ d, Dependency.Type_ d = "node"
                       ∧ Dependency.Name d = "lodash") fleet
  ∧ ["4.17.20"; "4.17.19"] ≠ []
  ∧ (length ["4.17.20"; "4.17.19"] ≤ length [1%N; 2%N; 3%N])%nat.
Proof.
  apply (pipelines_entry_shape "node" ["lodash"; "left-pad"] fleet
           (DependencyResult.mk "lodash" [1%N; 2%N; 3%N]
              ["4.17.20"; "4.17.19"])).
  vm_compute. left.
Defined.

(** X8. A stored document of another type, or of a name that is not
    queried, never changes the aggregation, wherever it sits in the
    collection. *)
Theorem pipelines_other_document (type : string) (names : list string)
    (docs1 docs2 : list Dependency.t) (d : Dependency.t) :
  Dependency.Type_ d ≠ type ∨ Dependency.Name d ∉ names →
  pipelines type names (docs1 ++ d :: docs2) =
  pipelines type names (docs1 ++ docs2).
Proof.
  intros Hd. unfold pipelines. f_equal. f_equal. unfold stage_match.
  rewrite !filter_app. f_equal. apply filter_cons_False.
  intros [Ht Hn]. destruct Hd; done.
Qed.

Lemma pipelines_other_document_witness :
  pipelines "node" ["lodash"]
    ([Dependency.mk 1%N "node" "lodash" "4.17.20" "" DependencyResult.zero]
     ++ Dependency.mk 2%N "python" "lodash" "0.1" "" DependencyResult.zero
     :: [Dependency.mk 3%N "node" "lodash" "4.17.19" ""
           DependencyResult.zero]) =
  pipelines "node" ["lodash"]
    ([Dependency.mk 1%N "node" "lodash" "4.17.20" "" DependencyResult.zero]
     ++ [Dependency.mk 3%N "node" "lodash" "4.17.19" ""
           DependencyResult.zero]).
Proof.
  apply (pipelines_other_document "node" ["lodash"]).
  left. discriminate.
Defined.

(** X9. The aggregation depends on the queried names as a set only:
    repeating a name or reordering the names gives the same answer. *)
Theorem pipelines_names_as_set (type : string) (names names' : list string)
    (docs : list Dependency.t) :
  (∀ n, n ∈ names ↔ n ∈ names') →
  pipelines type names docs = pipelines type names' docs.
Proof.
  intros Hsame. unfold pipelines. f_equal. f_equal. unfold stage_match.
  apply list_filter_iff. intros d. by rewrite Hsame.
Qed.

Lemma pipelines_names_as_set_witness :
  pipelines "node" ["lodash"; "express"; "lodash"] fleet =
  pipelines "node" ["express"; "lodash"] fleet.
Proof.
  apply (pipelines_names_as_set "node" ["lodash"; "express"; "lodash"]
           ["express"; "lodash"] fleet).
  intros n. rewrite !elem_of_cons, !elem_of_nil. tauto.
Defined.

(** X10. When the collection holds at most one document per node, type
    and name, no node id is repeated in an entry of the aggregation. *)
Theorem pipelines_no_repeated_node_id (type : string) (names : list string)
    (docs : list Dependency.t) (dr : DependencyResult.t) :
  NoDup ((λ d, (Dependency.NodeId d, Dependency.Type_ d, Dependency.Name d))
           <$> docs) →
  dr ∈ pipelines type names docs → NoDup (DependencyResult.NodeIds dr).
Proof. apply pipelines_NodeIds_NoDup. Qed.

Lemma pipelines_no_repeated_node_id_witness :
  NoDup (DependencyResult.NodeIds
           (DependencyResult.mk "lodash" [1%N; 2%N; 3%N]
              ["4.17.20"; "4.17.19"])).
Proof.
  apply (pipelines_no_repeated_node_id "node" ["lodash"; "left-pad"] fleet).
  - vm_compute. repeat constructor; rewrite ?elem_of_cons, ?elem_of_nil;
      intuition discriminate.
  - vm_compute. left.
Defined.

(** ** The request URL *)

Lemma wrap_in_range (z : Z) :
  (- 2 ^ 63 ≤ z < 2 ^ 63)%Z → Go.wrap z = z.
Proof.
  intros Hz. unfold Go.wrap. rewrite Z.mod_small by lia. lia.
Qed.

(** X11. For a page number of at least one and a page size that does not
    overflow the product, the offset sent to the registry is the decimal
    numeral of [(Page - 1) * Size]. *)
Theorem requestUrl_offset (query : string) (pagination : Pagination.t) :
  (1 ≤ Pagination.Page pagination < 2 ^ 63)%Z →
  (0 ≤ Pagination.Size pagination)%Z →
  ((Pagination.Page pagination - 1) * Pagination.Size pagination < 2 ^ 63)%Z →
  requestUrl query pagination =
    "https://api.npms.io/v2/search?from="
    +:+ Go.fmt_d ((Pagination.Page pagination - 1)
                  * Pagination.Size pagination)
    +:+ "&q=" +:+ url.QueryEscape query +:+ "&size=20".
Proof.
  intros Hp Hs Hmul. unfold requestUrl, Go.mul, Go.sub.
  rewrite (wrap_in_range (Pagination.Page pagination - 1)) by lia.
  rewrite wrap_in_range by nia. reflexivity.
Qed.

Lemma requestUrl_offset_witness :
  requestUrl "lodash" (Pagination.mk 3 10) =
    "https://api.npms.io/v2/search?from="
    +:+ Go.fmt_d ((3 - 1) * 10) +:+ "&q=" +:+ url.QueryEscape "lodash"
    +:+ "&size=20".
Proof.
  apply (requestUrl_offset "lodash" (Pagination.mk 3 10)); simpl; lia.
Defined.

Lemma fmt_d_negative (z : Z) :
  (z < 0)%Z → Go.fmt_d z = "-" +:+ Go.fmt_d (- z).
Proof.
  intros Hz. destruct z as [|p|p]; [lia..|]. reflexivity.
Qed.

(** X12. The page number is not checked: for a page below one and a
    positive page size the registry is asked for a negative offset, the
    numeral of [(1 - Page) * Size] behind a minus sign. *)
Theorem requestUrl_page_below_1 (query : string) (pagination : Pagination.t) :
  (- 2 ^ 63 < Pagination.Page pagination < 1)%Z →
  (0 < Pagination.Size pagination)%Z →
  ((1 - Pagination.Page pagination) * Pagination.Size pagination ≤ 2 ^ 63)%Z →
  requestUrl query pagination =
    "https://api.npms.io/v2/search?from=-"
    +:+ Go.fmt_d ((1 - Pagination.Page pagination)
                  * Pagination.Size pagination)
    +:+ "&q=" +:+ url.QueryEscape query +:+ "&size=20".
Proof.
  intros Hp Hs Hmul. unfold requestUrl, Go.mul, Go.sub.
  rewrite (wrap_in_range (Pagination.Page pagination - 1)) by lia.
  rewrite wrap_in_range by nia.
  rewrite fmt_d_negative by nia.
  replace (- ((Pagination.Page pagination - 1) * Pagination.Size pagination))%Z
    with ((1 - Pagination.Page pagination) * Pagination.Size pagination)%Z
    by lia.
  reflexivity.
Qed.

Lemma requestUrl_page_below_1_witness :
  requestUrl "lodash" (Pagination.mk 0 10) =
    "https://api.npms.io/v2/search?from=-"
    +:+ Go.fmt_d ((1 - 0) * 10) +:+ "&q=" +:+ url.QueryEscape "lodash"
    +:+ "&size=20".
Proof.
  apply (requestUrl_page_below_1 "lodash" (Pagination.mk 0 10)); simpl; lia.
Defined.

(** *** Escaping of the query *)

Lemma all_bytes_app (p : ascii → bool) (s1 s2 : string) :
  all_bytes p (s1 +:+ s2) = all_bytes p s1 && all_bytes p s2.
Proof.
  induction s1 as [|c s1 IH]; simpl; [done|].
  by rewrite IH, andb_assoc.
Qed.

Lemma QueryEscape_cons (c : ascii) (s : string) :
  url.QueryEscape (String c s) =
    url.QueryEscape (String c "") +:+ url.QueryEscape s.
Proof.
  simpl. destruct (Ascii.eqb c " "); [done|].
  by destruct (url.shouldEscape c).
Qed.

Lemma QueryEscape_byte_safe (c : ascii) :
  all_bytes query_byte (url.QueryEscape (String c "")) = true.
Proof. destruct c as [[] [] [] [] [] [] [] []]; reflexivity. Qed.

(** X13. The query value of the request URL is made of letters, digits
    and the bytes [-], [_], [.], [~], [+] and [%] only: whatever the query
    holds, it cannot end the parameter [q] or add a parameter of its own. *)
Theorem requestUrl_query_bytes (query : string) (pagination : Pagination.t) :
  ∃ q : string,
    requestUrl query pagination =
      "https://api.npms.io/v2/search?from="
      +:+ Go.fmt_d (Go.mul (Go.sub (Pagination.Page pagination) 1)
                           (Pagination.Size pagination))
      +:+ "&q=" +:+ q +:+ "&size=20"
    ∧ all_bytes query_byte q = true.
Proof.
  exists (url.QueryEscape query). split; [reflexivity|].
  induction query as [|c s IH]; [done|].
  rewrite QueryEscape_cons, all_bytes_app, IH, QueryEscape_byte_safe. done.
Qed.

Lemma QueryEscape_unreserved (s : string) :
  all_bytes unreserved s = true → url.QueryEscape s = s.
Proof.
  induction s as [|c s IH]; simpl; [done|].
  intros [Hc Hs]%andb_true_iff. rewrite (IH Hs).
  unfold unreserved in Hc. apply negb_true_iff in Hc. rewrite Hc.
  destruct (Ascii.eqb_spec c " ") as [->|_]; [discriminate Hc|done].
Qed.

(** X14. A query made of letters, digits and [-], [_], [.], [~] goes into
    the request URL as it is. *)
Theorem requestUrl_unreserved (query : string) (pagination : Pagination.t) :
  all_bytes unreserved query = true →
  requestUrl query pagination =
    "https://api.npms.io/v2/search?from="
    +:+ Go.fmt_d (Go.mul (Go.sub (Pagination.Page pagination) 1)
                         (Pagination.Size pagination))
    +:+ "&q=" +:+ query +:+ "&size=20".
Proof.
  intros Hq. unfold requestUrl. by rewrite QueryEscape_unreserved.
Qed.

Lemma requestUrl_unreserved_witness :
  requestUrl "left-pad_2.0~rc" (Pagination.mk 1 20) =
    "https://api.npms.io/v2/search?from="
    +:+ Go.fmt_d (Go.mul (Go.sub 1 1) 20)
    +:+ "&q=" +:+ "left-pad_2.0~rc" +:+ "&size=20".
Proof.
  apply (requestUrl_unreserved "left-pad_2.0~rc" (Pagination.mk 1 20)).
  reflexivity.
Defined.

Lemma QueryUnescape_byte (c : ascii) (rest : string) :
  QueryUnescape (url.QueryEscape (String c "") +:+ rest) =
    String c <$> QueryUnescape rest.
Proof. destruct c as [[] [] [] [] [] [] [] []]; reflexivity. Qed.

Lemma QueryUnescape_QueryEscape (s : string) :
  QueryUnescape (url.QueryEscape s) = Some s.
Proof.
  induction s as [|c s IH]; [done|].
  rewrite QueryEscape_cons, QueryUnescape_byte, IH. done.
Qed.

Lemma append_length (s1 s2 : string) :
  String.length (s1 +:+ s2) = (String.length s1 + String.length s2)%nat.
Proof. induction s1 as [|c s1 IH]; simpl; [done|]. by rewrite IH. Qed.

Lemma append_cancel_r (s1 s2 s : string) :
  s1 +:+ s = s2 +:+ s → s1 = s2.
Proof.
  revert s2. induction s1 as [|c s1 IH]; intros [|c' s2] Heq.
  - done.
  - apply (f_equal String.length) in Heq.
    rewrite !append_length in Heq. simpl in Heq. lia.
  - apply (f_equal String.length) in Heq.
    rewrite !append_length in Heq. simpl in Heq. lia.
  - simpl in Heq. injection Heq as -> Heq. f_equal. by apply IH.
Qed.

(** X15. Escaping loses nothing: two searches with the same pagination ask
    the registry for the same URL only when their queries are the same. *)
Theorem requestUrl_inj (query1 query2 : string) (pagination : Pagination.t) :
  requestUrl query1 pagination = requestUrl query2 pagination →
  query1 = query2.
Proof.
  unfold requestUrl. intros Heq.
  apply (inj (String.app _)) in Heq.
  apply (inj (String.app _)) in Heq.
  apply (inj (String.app _)) in Heq.
  apply append_cancel_r in Heq.
  apply (f_equal QueryUnescape) in Heq.
  rewrite !QueryUnescape_QueryEscape in Heq. congruence.
Qed.

Lemma requestUrl_inj_witness : "lodash" = "lodash".
Proof.
  apply (requestUrl_inj "lodash" "lodash" (Pagination.mk 1 20)). reflexivity.
Defined.

(** ** The inventory scan, when it succeeds *)

Lemma listed_fmap (res : NpmListResult.t) :
  listed res =
    (λ e, Dependency.mk 0%N DependencyTypeNode e.1
            (NpmListResult.Version e.2) "" DependencyResult.zero)
      <$> map_to_list (NpmListResult.Dependencies res).
Proof.
  unfold listed.
  apply (fold_left_snoc
    (λ e : string * NpmListResult.Dependency_,
       Dependency.mk 0%N DependencyTypeNode e.1
         (NpmListResult.Version e.2) "" DependencyResult.zero) _ []).
Qed.

(** X16. The list built from a decoded listing has one item per package of
    the listing and no name twice; an item is in the list exactly when the
    listing holds its name with its version, and every item is of the node
    type, with no latest version and nothing attached. *)
Theorem listed_entries (res : NpmListResult.t) :
  length (listed res) = size (NpmListResult.Dependencies res)
  ∧ NoDup (Dependency.Name <$> listed res)
  ∧ ∀ d : Dependency.t,
      d ∈ listed res ↔
      ∃ (name : string) (p : NpmListResult.Dependency_),
        NpmListResult.Dependencies res !! name = Some p
        ∧ d = Dependency.mk 0%N DependencyTypeNode name
                (NpmListResult.Version p) "" DependencyResult.zero.
Proof.
  rewrite listed_fmap. split_and!.
  - rewrite length_fmap. apply length_map_to_list.
  - rewrite <- list_fmap_compose. apply NoDup_fst_map_to_list.
  - intros d. rewrite list_elem_of_fmap. split.
    + intros ([name p] & -> & Hin). apply elem_of_map_to_list in Hin.
      exists name, p. done.
    + intros (name & p & Hin & ->). exists (name, p).
      split; [done|]. by apply elem_of_map_to_list.
Qed.

(** X17. The scan returns no error exactly when the process exits with
    code 0 and its output decodes; the list returned then is the one built
    from the decoded listing. *)
Theorem GetDependencies_ok_iff (env : Env) (params : UpdateParams.t)
    (tr : list Event) :
  (GetDependencies env params tr).1.2 = None ↔
  ∃ (out : string) (res : NpmListResult.t),
    run env (UpdateParams.Cmd params)
      ["list"; "-g"; "--json"; "--depth"; "0"] = Exited 0 out
    ∧ Unmarshal env out = inr res
    ∧ (GetDependencies env params tr).1.1 = listed res.
Proof.
  unfold GetDependencies, exec_Command, emit, list_args.
  unfold mbind, mret, M_bind, M_ret.
  destruct (run env _ _) as [err|code out] eqn:Hrun; simpl.
  - split; [discriminate|]. intros (? & ? & [=] & _).
  - destruct (decide (code = 0%Z)) as [->|Hcode].
    + destruct (Unmarshal env out) as [err|res] eqn:Hjson; simpl.
      * split; [discriminate|]. intros (? & ? & [= <-] & ? & _). congruence.
      * split; [|done]. intros _. exists out, res. done.
    + split; [discriminate|]. intros (? & ? & [= ? _] & _). done.
Qed.

(** ** Running the package manager *)

(** X18. An install, and likewise an uninstall, starts exactly one process,
    the command with the arguments built, and returns no error exactly when
    that process exits with code 0; a process that cannot be started or
    exits with another code is returned as the error. *)
Theorem install_uninstall_run (env : Env) (ip : InstallParams.t)
    (up : UninstallParams.t) (tr : list Event) :
  ((InstallDependencies env ip tr).2 =
     tr ++ [EvExec (InstallParams.Cmd ip) (InstallDependencies_args ip)]
   ∧ ((InstallDependencies env ip tr).1 = None ↔
      ∃ out, run env (InstallParams.Cmd ip) (InstallDependencies_args ip)
             = Exited 0 out))
  ∧ ((UninstallDependencies env up tr).2 =
       tr ++ [EvExec (UninstallParams.Cmd up)
                (UninstallDependencies_args up)]
     ∧ ((UninstallDependencies env up tr).1 = None ↔
        ∃ out, run env (UninstallParams.Cmd up)
                 (UninstallDependencies_args up) = Exited 0 out)).
Proof.
  assert (Hsw : ∀ o, start_wait o = None ↔ ∃ out, o = Exited 0 out).
  { intros [err|code out]; simpl.
    - split; [discriminate|]. by intros [? [=]].
    - case_decide as Hc.
      + subst code. split; [eauto|done].
      + split; [discriminate|]. intros [? [= ? _]]. done. }
  split; (split; [reflexivity|apply Hsw]).
Qed.

(** X19. With no package name to install, the arguments are those of the
    configuration mode, [install -g] and the proxy flags, and the package
    manager is still started. *)
Theorem InstallDependencies_no_names (env : Env) (params : InstallParams.t)
    (tr : list Event) :
  InstallParams.Names params = [] →
  (InstallDependencies env params tr).2 =
    tr ++ [EvExec (InstallParams.Cmd params)
             (["install"; "-g"] ++ proxy_flags (InstallParams.Proxy params))].
Proof.
  intros Hnames. rewrite InstallDependencies_exec.
  rewrite InstallDependencies_args_proxy, Hnames.
  destruct (InstallParams.UseConfig params); by rewrite app_nil_r.
Qed.

Lemma InstallDependencies_no_names_witness :
  (InstallDependencies env_up
     (InstallParams.mk 7%N "npm" [] "" false false) []).2 =
    [] ++ [EvExec "npm" (["install"; "-g"] ++ proxy_flags "")].
Proof.
  apply (InstallDependencies_no_names env_up
           (InstallParams.mk 7%N "npm" [] "" false false) []).
  reflexivity.
Defined.

(** X20. Without proxy and without upgrade, installing a list of names and
    uninstalling the same list run command lines that differ in the
    subcommand only. *)
Theorem install_uninstall_same_names (ip : InstallParams.t)
    (up : UninstallParams.t) :
  InstallParams.Proxy ip = "" →
  InstallParams.Upgrade ip = false →
  InstallParams.UseConfig ip = false →
  InstallParams.Names ip = UninstallParams.Names up →
  ∃ rest : list string,
    InstallDependencies_args ip = "install" :: rest
    ∧ UninstallDependencies_args up = "uninstall" :: rest.
Proof.
  intros Hproxy Hup Hcfg Hnames. exists ("-g" :: UninstallParams.Names up).
  split.
  - rewrite InstallDependencies_args_proxy, Hproxy, Hup, Hcfg, Hnames.
    simpl. by rewrite list_fmap_id.
  - unfold UninstallDependencies_args.
    rewrite (fold_left_snoc id). by rewrite list_fmap_id.
Qed.

Lemma install_uninstall_same_names_witness :
  ∃ rest : list string,
    InstallDependencies_args
      (InstallParams.mk 7%N "npm" ["lodash"; "express"] "" false false)
      = "install" :: rest
    ∧ UninstallDependencies_args
        (UninstallParams.mk 8%N "npm" ["lodash"; "express"])
      = "uninstall" :: rest.
Proof.
  apply (install_uninstall_same_names
           (InstallParams.mk 7%N "npm" ["lodash"; "express"] "" false false)
           (UninstallParams.mk 8%N "npm" ["lodash"; "express"]));
    reflexivity.
Defined.

(** ** The latest version of a package *)


(** ** From the store to the answer *)

Lemma pipelines_entry_exists (type : string) (names : list string)
    (docs : list Dependency.t) (x : Dependency.t) :
  x ∈ docs → Dependency.Type_ x = type → Dependency.Name x ∈ names →
  ∃ dr, dr ∈ pipelines type names docs
        ∧ DependencyResult.Name dr = Dependency.Name x.
Proof.
  intros Hx Ht Hn.
  eexists (DependencyResult.mk (Dependency.Name x) _ _). split; [|done].
  apply elem_of_pipelines. simpl. split_and!; [|done..].
  intros Hnil.
  assert (Hin : x ∈ filter (λ d, Dependency.Name d = Dependency.Name x)
                      (stage_match type names docs))
    by (by apply elem_of_group_docs).
  rewrite Hnil in Hin. by apply elem_of_nil in Hin.
Qed.

Lemma pipelines_entry_docs (type : string) (names : list string)
    (docs : list Dependency.t) (dr : DependencyResult.t) :
  dr ∈ pipelines type names docs →
  DependencyResult.Name dr ∈ names
  ∧ DependencyResult.NodeIds dr =
      Dependency.NodeId
        <$> filter (λ d, Dependency.Type_ d = type
                         ∧ Dependency.Name d = DependencyResult.Name dr) docs
  ∧ ∀ v, v ∈ DependencyResult.Versions dr ↔
         v ∈ Dependency.Version
               <$> filter (λ d, Dependency.Type_ d = type
                                ∧ Dependency.Name d = DependencyResult.Name dr)
                     docs.
Proof.
  intros Hdr. apply elem_of_pipelines in Hdr as (Hne & Hns & Hvs).
  assert (Hname : DependencyResult.Name dr ∈ names).
  { destruct (filter _ (stage_match type names docs)) as [|d ds] eqn:Hds;
      [done|].
    assert (Hd : d ∈ filter
      (λ d, Dependency.Name d = DependencyResult.Name dr)
      (stage_match type names docs)) by (rewrite Hds; left).
    by apply elem_of_group_docs in Hd as (_ & _ & _ & Hin). }
  rewrite group_docs_filter in Hns, Hvs by done.
  split_and!; [done..|].
  intros v. rewrite Hvs, addToSet_fold_elem, elem_of_nil. tauto.
Qed.

(** The list of a search that answered with one. *)
Lemma GetRepoList_list_inv (env : Env) (query : string)
    (pagination : Pagination.t) (tr tr' : list Event)
    (deps : list Dependency.t) (total : Z) :
  GetRepoList env query pagination tr =
    (HandleSuccessWithListData deps total, tr') →
  ∃ npmRes : NpmResponseList.t,
    deps = attach (pipelines DependencyTypeNode (result_names npmRes)
                     (colD env))
             <$> NpmResponseList.Results npmRes.
Proof.
  intros Hrun.
  destruct (decide (query = "")) as [->|Hq]; [discriminate Hrun|].
  destruct (http_get env (requestUrl query pagination)) as [res|ores err]
    eqn:Hget.
  2: { rewrite (GetRepoList_registry_failed env query pagination tr ores err)
         in Hrun by done. by destruct ores. }
  destruct (ToJSON env (Http.Bytes res)) as [err|npmRes] eqn:Hjson.
  { by rewrite (GetRepoList_not_decoded env query pagination tr res err)
      in Hrun. }
  destruct (decide (NpmResponseList.Total npmRes = 0%Z)) as [Hz|Hnz].
  { by rewrite (GetRepoList_no_results env query pagination tr res npmRes)
      in Hrun. }
  rewrite (GetRepoList_after_registry env query pagination tr res npmRes)
    in Hrun by done.
  destruct (colD_err env (result_names npmRes)); [discriminate Hrun|].
  injection Hrun as <- _ _. exists npmRes.
  apply iterate_attach, pipelines_names_NoDup.
Qed.

(** X22. Every item of the list a search returns tells where its package
    is installed: the node ids it carries are those of the stored node-type
    documents of its name, one per document, and its versions are the
    versions of these documents; an item whose package is stored nowhere
    carries neither. *)
Theorem GetRepoList_item_nodes (env : Env) (query : string)
    (pagination : Pagination.t) (tr tr' : list Event)
    (deps : list Dependency.t) (total : Z) :
  GetRepoList env query pagination tr =
    (HandleSuccessWithListData deps total, tr') →
  ∀ d : Dependency.t, d ∈ deps →
    let installed :=
      filter (λ x, Dependency.Type_ x = DependencyTypeNode
                   ∧ Dependency.Name x = Dependency.Name d) (colD env) in
    DependencyResult.NodeIds (Dependency.Result d) =
      Dependency.NodeId <$> installed
    ∧ ∀ v, v ∈ DependencyResult.Versions (Dependency.Result d) ↔
           v ∈ Dependency.Version <$> installed.
Proof.
  intros Hrun d Hd installed. subst installed.
  apply GetRepoList_list_inv in Hrun as [npmRes ->].
  apply list_elem_of_fmap in Hd as (r & -> & Hr).
  set (agg := pipelines DependencyTypeNode (result_names npmRes) (colD env)).
  assert (Hn : NpmResponseList.Name (NpmResponseList.Package_ r)
               ∈ result_names npmRes)
    by (unfold result_names; apply list_elem_of_fmap; exists r; done).
  unfold attach.
  destruct (list_find _ agg) as [[i dr]|] eqn:Hfind; simpl.
  - apply list_find_Some in Hfind as (Hi & Hname & _). simpl in Hname.
    apply list_elem_of_lookup_2 in Hi.
    apply pipelines_entry_docs in Hi as (_ & Hns & Hvs).
    rewrite Hname in Hns, Hvs. done.
  - apply list_find_None in Hfind.
    assert (Hnone : filter
      (λ x, Dependency.Type_ x = DependencyTypeNode
            ∧ Dependency.Name x =
                NpmResponseList.Name (NpmResponseList.Package_ r))
      (colD env) = []).
    { destruct (filter _ (colD env)) as [|x xs] eqn:Hxs; [done|].
      assert (Hx : x ∈ filter
        (λ x, Dependency.Type_ x = DependencyTypeNode
              ∧ Dependency.Name x =
                  NpmResponseList.Name (NpmResponseList.Package_ r))
        (colD env)) by (rewrite Hxs; left).
      apply list_elem_of_filter in Hx as [[Ht Hnx] Hx].
      destruct (pipelines_entry_exists DependencyTypeNode
                  (result_names npmRes) (colD env) x)
        as (dr & Hdr & Hdrn); [done|done|by rewrite Hnx|].
      destruct (proj1 (Forall_forall _ _) Hfind dr Hdr). simpl. congruence. }
    rewrite Hnone. done.
Qed.

Lemma GetRepoList_item_nodes_witness :
  DependencyResult.NodeIds
    (DependencyResult.mk "lodash" [1%N; 2%N; 3%N] ["4.17.20"; "4.17.19"]) =
    Dependency.NodeId
      <$> filter (λ x, Dependency.Type_ x = DependencyTypeNode
                       ∧ Dependency.Name x = "lodash") (colD env_up)
  ∧ ∀ v, v ∈ ["4.17.20"; "4.17.19"] ↔
         v ∈ Dependency.Version
               <$> filter (λ x, Dependency.Type_ x = DependencyTypeNode
                                ∧ Dependency.Name x = "lodash") (colD env_up).
Proof.
  apply (GetRepoList_item_nodes env_up "lodash" (Pagination.mk 1 20) []
           [EvHttpGet "https://api.npms.io/v2/search?from=0&q=lodash&size=20";
            EvAggregate "node" ["lodash"; "left-pad"]]
           answer_two 2 eq_refl
           (Dependency.mk 0%N "" "lodash" "" "4.17.21"
              (DependencyResult.mk "lodash" [1%N; 2%N; 3%N]
                 ["4.17.20"; "4.17.19"]))).
  left.
Defined.
